(** * bot.py -- the BCN Art Compass Telegram relay

    A shallow embedding of [src/bot.py]: configuration loading, the backend
    client [call_bcn_api], the user-identifier derivation, the response
    formatter [_format_for_telegram] and the free-text handler
    [handle_message], followed by the properties the specification states
    about them.

    Python values are modelled as the code uses them:
    - a [str] is a list of Unicode code points ([N]); [len] is [length];
    - an [int] is a [Z];
    - an attribute that may be [None] is an [option];
    - a coroutine that awaits the outside world is a function of the
      outcomes of those awaits, producing the list of effects it performed
      and either a value or the exception that left it. *)

From Stdlib Require Import List NArith ZArith Lia Bool String Ascii.
From Stdlib Require Import DecimalString DecimalZ.
Import ListNotations.

Set Implicit Arguments.

(** ** Python strings *)

Module PyStr.

(** A [str]: a sequence of code points. *)
Definition pystr := list N.

(** An ASCII literal of the source, as code points. *)
Definition lit (s : string) : pystr :=
  map N_of_ascii (list_ascii_of_string s).

(** [len(s)]. *)
Definition len (s : pystr) : nat := List.length s.

Definition eqb (a b : pystr) : bool :=
  if list_eq_dec N.eq_dec a b then true else false.

(** Truthiness of a [str]: the empty string is falsy. *)
Definition truthy (s : pystr) : bool :=
  match s with [] => false | _ :: _ => true end.

(** The characters [str.isspace] accepts, which are the ones [str.strip()]
    removes and the ones [\s] matches in a [str] pattern. *)
Definition isspace (c : N) : bool :=
  ((9 <=? c) && (c <=? 13) || (28 <=? c) && (c <=? 32)
   || (c =? 133) || (c =? 160) || (c =? 5760)
   || (8192 <=? c) && (c <=? 8202)
   || (c =? 8232) || (c =? 8233) || (c =? 8239) || (c =? 8287)
   || (c =? 12288))%N.

Fixpoint lstrip (s : pystr) : pystr :=
  match s with
  | c :: s' => if isspace c then lstrip s' else s
  | [] => []
  end.

Definition rstrip (s : pystr) : pystr := rev (lstrip (rev s)).

(** [s.strip()]. *)
Definition strip (s : pystr) : pystr := rstrip (lstrip s).

(** [s.rstrip('/')]. *)
Fixpoint lstrip_char (x : N) (s : pystr) : pystr :=
  match s with
  | c :: s' => if (c =? x)%N then lstrip_char x s' else s
  | [] => []
  end.

Definition rstrip_char (x : N) (s : pystr) : pystr :=
  rev (lstrip_char x (rev s)).

(** [str(z)] for an [int]: its decimal numeral, with a minus sign when it
    is negative. *)
Definition str_of_int (z : Z) : pystr :=
  lit (NilEmpty.string_of_int (Z.to_int z)).

(** The slice [s[:n]]. *)
Definition slice_to (n : nat) (s : pystr) : pystr := firstn n s.

End PyStr.
Import PyStr.

(** ** The Telegram update, as far as the bot reads it *)

Record User := { user_id : Z; username : option pystr; first_name : pystr }.
Record Chat := { chat_id : Z }.
Record Message := { text : option pystr }.
Record Update := {
  message : option Message;
  effective_user : option User;
  effective_chat : option Chat
}.

(** Truthiness of an [int] and of an optional [str]. *)
Definition int_truthy (z : Z) : bool := negb (z =? 0)%Z.

Definition opt_str_truthy (o : option pystr) : bool :=
  match o with Some s => truthy s | None => false end.

(** The three guarded returns of [_telegram_user_id]; [None] when the guard
    is falsy and control falls through to the next [if]. *)
Definition by_username (update : Update) : option pystr :=
  match effective_user update with
  | Some u =>
      match username u with
      | Some name => if truthy name then Some (lit "tg_" ++ name) else None
      | None => None
      end
  | None => None
  end.

Definition by_user_id (update : Update) : option pystr :=
  match effective_user update with
  | Some u =>
      if int_truthy (user_id u)
      then Some (lit "tg_id_" ++ str_of_int (user_id u)) else None
  | None => None
  end.

Definition by_chat_id (update : Update) : option pystr :=
  match effective_chat update with
  | Some c =>
      if int_truthy (chat_id c)
      then Some (lit "tg_chat_" ++ str_of_int (chat_id c)) else None
  | None => None
  end.

(** [_telegram_user_id]: the first of username, user id and chat id that is
    present and truthy decides the identifier. *)
Definition _telegram_user_id (update : Update) : pystr :=
  match by_username update with
  | Some r => r
  | None =>
      match by_user_id update with
      | Some r => r
      | None =>
          match by_chat_id update with
          | Some r => r
          | None => lit "tg_unknown"
          end
      end
  end.

(** ** The fragment of [re] the formatter uses

    Patterns are built from single-character classes, literals, the
    [re.MULTILINE] line anchor, greedy repetition of a class and one capture
    group.  Matching is the backtracking search of [re]: a greedy repetition
    first takes as many characters as it can and gives them back one at a
    time while the rest of the pattern fails. *)

Module Re.

Inductive re : Type :=
| Chr (p : N -> bool)        (* one character of the class [p] *)
| Str (s : pystr)            (* a literal *)
| Bol                        (* [^] under [re.MULTILINE] *)
| Star (p : N -> bool)       (* [p*], greedy *)
| Seq (a b : re)
| Grp (a : re).              (* the capture group [\1] *)

(** [p+] *)
Definition Plus (p : N -> bool) : re := Seq (Chr p) (Star p).

(** The state of a match attempt: the character before the current
    position ([None] at the start of the string), the text from the
    current position on, and what group 1 has captured. *)
Record mstate := { prev : option N; rest : pystr; group1 : pystr }.

Definition advance (st : mstate) (c : N) (s : pystr) : mstate :=
  {| prev := Some c; rest := s; group1 := group1 st |}.

Definition capture (st st' : mstate) : mstate :=
  {| prev := prev st';
     rest := rest st';
     group1 := firstn (List.length (rest st) - List.length (rest st')) (rest st) |}.

(** [^] with [re.MULTILINE]: at the start of the string and right after
    each newline. *)
Definition at_bol (st : mstate) : bool :=
  match prev st with
  | None => true
  | Some c => (c =? 10)%N
  end.

(** A literal, character by character. *)
Fixpoint lit_from (l : pystr) (st : mstate) : option mstate :=
  match l with
  | [] => Some st
  | x :: l' =>
      match rest st with
      | c :: s' => if (c =? x)%N then lit_from l' (advance st c s') else None
      | [] => None
      end
  end.

(** Greedy repetition of a class in front of the continuation [k]: longest
    first, then shorter. *)
Fixpoint star_from (p : N -> bool) (s : pystr) (st : mstate)
         (k : mstate -> option mstate) : option mstate :=
  match s with
  | c :: s' =>
      if p c then
        match star_from p s' (advance st c s') k with
        | Some r => Some r
        | None => k st
        end
      else k st
  | [] => k st
  end.

Fixpoint m (r : re) (st : mstate) (k : mstate -> option mstate)
  : option mstate :=
  match r with
  | Chr p =>
      match rest st with
      | c :: s' => if p c then k (advance st c s') else None
      | [] => None
      end
  | Str l =>
      match lit_from l st with
      | Some st' => k st'
      | None => None
      end
  | Bol => if at_bol st then k st else None
  | Star p => star_from p (rest st) st k
  | Seq a b => m a st (fun st' => m b st' k)
  | Grp a => m a st (fun st' => k (capture st st'))
  end.

(** An attempt to match [r] at the current position of [s], the previous
    character being [pv]. *)
Definition match_at (r : re) (pv : option N) (s : pystr) : option mstate :=
  m r {| prev := pv; rest := s; group1 := [] |} Some.

(** A replacement template: literal text and references to group 1. *)
Inductive titem := TLit (s : pystr) | TGrp1.

Fixpoint expand (t : list titem) (g : pystr) : pystr :=
  match t with
  | [] => []
  | TLit s :: t' => s ++ expand t' g
  | TGrp1 :: t' => g ++ expand t' g
  end.

(** [re.sub(r, t, s)] for a pattern that matches no empty string, as all
    seven patterns of the formatter are: scan left to right; where the
    pattern matches, emit the expanded template and resume behind the
    match; elsewhere copy the character.  [skip] counts the characters of
    the current match still to be passed over. *)
Fixpoint sub_from (r : re) (t : list titem) (skip : nat) (pv : option N)
         (s : pystr) : pystr :=
  match s with
  | [] => []
  | c :: s' =>
      match skip with
      | S n => sub_from r t n (Some c) s'
      | O =>
          match match_at r pv s with
          | Some st =>
              expand t (group1 st)
              ++ sub_from r t (List.length s' - List.length (rest st)) (Some c) s'
          | None => c :: sub_from r t 0 (Some c) s'
          end
      end
  end.

Definition sub (r : re) (t : list titem) (s : pystr) : pystr :=
  sub_from r t 0 None s.

End Re.
Import Re.

(** ** The response formatter *)

Definition is_char (x c : N) : bool := (c =? x)%N.
Definition not_char (x c : N) : bool := negb (c =? x)%N.

Definition STAR : N := 42.
Definition COLON : N := 58.
Definition DOT : N := 46.
Definition NL : N := 10.
Definition SP : N := 32.

(** The decorative markers, code point by code point as the source file
    holds them. *)
Definition MARK_BOLD : pystr := [240; 376; 381; 168; SP]%N.
Definition MARK_WHY : pystr := [240; 376; 8217; 161; SP]%N.
Definition MARK_WHEN : pystr := [240; 376; 8220; 8230; SP]%N.
Definition MARK_WHERE : pystr := [240; 376; 8220; SP]%N.
Definition MARK_LOCATION : pystr := [240; 376; 8220; SP]%N.
Definition MARK_PRICE : pystr := [240; 376; 8217; 176; SP]%N.
Definition MARK_MORE_INFO : pystr := [240; 376; 8221; 8212; SP]%N.
Definition MARK_NUMBER : pystr := [239; 184; 226; 402; 163; SP]%N.

(** [\*\*([^*]+)\*\*] *)
Definition re_bold : re :=
  Seq (Chr (is_char STAR)) (Seq (Chr (is_char STAR))
    (Seq (Grp (Plus (not_char STAR)))
      (Seq (Chr (is_char STAR)) (Chr (is_char STAR))))).

(** [(Why you[^:]*:)] *)
Definition re_why : re :=
  Grp (Seq (Str (lit "Why you")) (Seq (Star (not_char COLON)) (Chr (is_char COLON)))).

(** [(When:)], [(Where:)], [(Location:)], [(Price:)], [(More Info:)] *)
Definition re_label (l : string) : re := Grp (Str (lit l)).

(** [\n{3,}] *)
Definition re_blank : re :=
  Seq (Chr (is_char NL)) (Seq (Chr (is_char NL)) (Seq (Chr (is_char NL))
    (Star (is_char NL)))).

Section Formatter.

(** The class [\d] of a [str] pattern: the decimal digits of the Unicode
    database of the running interpreter. *)
Variable uni_digit : N -> bool.

(** [^(\d+)\.\s+] with [re.MULTILINE] *)
Definition re_item : re :=
  Seq Bol (Seq (Grp (Plus uni_digit)) (Seq (Chr (is_char DOT)) (Plus isspace))).

Definition _format_for_telegram (text : pystr) : pystr :=
  let text := sub re_bold [TLit MARK_BOLD; TGrp1] text in
  let text := sub re_why [TLit MARK_WHY; TGrp1] text in
  let text := sub (re_label "When:") [TLit MARK_WHEN; TGrp1] text in
  let text := sub (re_label "Where:") [TLit MARK_WHERE; TGrp1] text in
  let text := sub (re_label "Location:") [TLit MARK_LOCATION; TGrp1] text in
  let text := sub (re_label "Price:") [TLit MARK_PRICE; TGrp1] text in
  let text := sub (re_label "More Info:") [TLit MARK_MORE_INFO; TGrp1] text in
  let text := sub re_item [TLit [NL]; TGrp1; TLit MARK_NUMBER] text in
  let text := sub re_blank [TLit [NL; NL]] text in
  strip text.

End Formatter.

(** The digits [0-9]. *)
Definition ascii_digit (c : N) : bool := ((48 <=? c) && (c <=? 57))%N.

(** ** Values, exceptions and effects *)

(** The Python objects that [resp.json()] can produce.  Of a [float] only
    whether it is zero matters to the code. *)
#[warnings="-register-all"]
Inductive pyval : Type :=
| PNone
| PBool (b : bool)
| PInt (z : Z)
| PFloat (nonzero : bool)
| PStr (s : pystr)
| PList (l : list pyval)
| PDict (d : list (pystr * pyval)).

(** Truth value of an object, as [or] tests it. *)
Definition val_truthy (v : pyval) : bool :=
  match v with
  | PNone => false
  | PBool b => b
  | PInt z => int_truthy z
  | PFloat nz => nz
  | PStr s => truthy s
  | PList l => match l with [] => false | _ => true end
  | PDict d => match d with [] => false | _ => true end
  end.

(** The entry of a [dict] under [key], if there is one. *)
Fixpoint dict_find (d : list (pystr * pyval)) (key : pystr) : option pyval :=
  match d with
  | [] => None
  | (k, v) :: d' => if PyStr.eqb k key then Some v else dict_find d' key
  end.

(** [d.get(key)] on a [dict]: the value under [key], else [None]. *)
Definition dict_get (d : list (pystr * pyval)) (key : pystr) : pyval :=
  match dict_find d key with
  | Some v => v
  | None => PNone
  end.

Inductive exn : Type :=
| ConnectError             (* httpx: the network failed *)
| TimeoutException         (* httpx: the 60 s timeout expired *)
| HTTPStatusError (status : Z)
| JSONDecodeError
| AttributeError
| TypeError
| RuntimeError (msg : pystr)
| TelegramError            (* the platform client failed to send *)
| CancelledError.          (* asyncio: derives from BaseException only *)

(** [isinstance(e, Exception)], what [except Exception] catches. *)
Definition is_Exception (e : exn) : bool :=
  match e with
  | CancelledError => false
  | _ => true
  end.

Inductive log_record : Type :=
| LogCalling (user : pystr) (head : pystr)
| LogReceived (n : nat)
| LogSent
| LogError (e : exn).

(** What a coroutine does to the outside world. *)
Inductive effect : Type :=
| EPost (url : pystr) (user message : pystr)
| ESendChatAction (chat : Z) (action : pystr)
| EReplyText (body : pystr)
| ELog (r : log_record).

Inductive outcome (A : Type) : Type :=
| Ret (a : A)
| Raise (e : exn).
Arguments Raise {A} e.

(** A computation: the effects performed, in order, and how it ended. *)
Definition M (A : Type) : Type := (list effect * outcome A)%type.

Definition ret {A} (a : A) : M A := ([], Ret a).
Definition raise {A} (e : exn) : M A := ([], Raise e).
Definition emit (x : effect) : M unit := ([x], Ret tt).

Definition bind {A B} (c : M A) (f : A -> M B) : M B :=
  match c with
  | (t, Ret a) => let (t', r) := f a in (t ++ t', r)
  | (t, Raise e) => (t, Raise e)
  end.

(** [try: c except Exception as e: h e] *)
Definition try_except {A} (c : M A) (h : exn -> M A) : M A :=
  match c with
  | (t, Raise e) =>
      if is_Exception e then let (t', r) := h e in (t ++ t', r)
      else (t, Raise e)
  | done => done
  end.

Notation "x <- c ;; k" := (bind c (fun x => k))
  (at level 61, c at next level, right associativity).
Notation "c ;;; k" := (bind c (fun _ => k))
  (at level 61, right associativity).

(** How each await of one handler run turns out. *)
Inductive post_outcome : Type :=
| PostRaises (e : exn)
| PostResponse (status : Z) (body : option pyval).
    (* [body]: what [resp.json()] parses, [None] when the body is not JSON *)

Record World := {
  chat_action_result : option exn;   (* [None]: the indicator was sent *)
  post_result : post_outcome;
  reply_result : option exn          (* [None]: the reply was sent *)
}.

(** ** The backend client *)

Definition FALLBACK : pystr := lit "No response from BCN Art Compass.".

Definition APOLOGY : pystr :=
  lit "I couldn't reach the BCN Art Compass backend right now. "
  ++ lit "Please try again in a moment.".

Record Response := { status_code : Z; json_body : option pyval }.

(** [await client.post(url, json=payload)] *)
Definition post (w : World) (url user message : pystr) : M Response :=
  emit (EPost url user message) ;;;
  match post_result w with
  | PostRaises e => raise e
  | PostResponse st body => ret {| status_code := st; json_body := body |}
  end.

(** [resp.raise_for_status()]: anything but 2xx raises. *)
Definition raise_for_status (resp : Response) : M unit :=
  if ((200 <=? status_code resp) && (status_code resp <=? 299))%Z
  then ret tt
  else raise (HTTPStatusError (status_code resp)).

(** [resp.json()] *)
Definition json (resp : Response) : M pyval :=
  match json_body resp with
  | Some v => ret v
  | None => raise JSONDecodeError
  end.

(** [data.get("response")]: only a [dict] has [get]. *)
Definition get_response (data : pyval) : M pyval :=
  match data with
  | PDict d => ret (dict_get d (lit "response"))
  | _ => raise AttributeError
  end.

Section Bot.

(** Module globals set from [_load_config] at import time. *)
Variable BCN_API_BASE_URL : pystr.
Variable uni_digit : N -> bool.

Definition call_bcn_api (w : World) (user message : pystr) : M pyval :=
  let url := rstrip_char 47 BCN_API_BASE_URL ++ lit "/chat" in
  try_except
    (resp <- post w url user message ;;
     raise_for_status resp ;;;
     data <- json resp ;;
     r <- get_response data ;;
     ret (if val_truthy r then r else PStr FALLBACK))
    (fun e =>
       emit (ELog (LogError e)) ;;;
       ret (PStr APOLOGY)).

(** [await context.bot.send_chat_action(chat_id=update.effective_chat.id,
    action="typing")]: the argument is evaluated first. *)
Definition send_typing (w : World) (update : Update) : M unit :=
  match effective_chat update with
  | None => raise AttributeError
  | Some c =>
      emit (ESendChatAction (chat_id c) (lit "typing")) ;;;
      match chat_action_result w with
      | Some e => raise e
      | None => ret tt
      end
  end.

(** [await update.message.reply_text(text)] *)
Definition reply_text (w : World) (body : pystr) : M unit :=
  emit (EReplyText body) ;;;
  match reply_result w with
  | Some e => raise e
  | None => ret tt
  end.

(** Lines 153-154: the length cap. *)
Definition clip (formatted_text : pystr) : pystr :=
  if (4000 <? len formatted_text)%nat
  then slice_to 3996 formatted_text ++ lit "..."
  else formatted_text.

(** What follows the await of [call_bcn_api]; [len] and [re.sub] accept
    the answer only when it is a [str]. *)
Definition deliver (w : World) (response_text : pyval) : M unit :=
  match response_text with
  | PStr s =>
      emit (ELog (LogReceived (len s))) ;;;
      let formatted_text := _format_for_telegram uni_digit s in
      let formatted_text := clip formatted_text in
      reply_text w formatted_text ;;;
      emit (ELog LogSent)
  | PList l => emit (ELog (LogReceived (List.length l))) ;;; raise TypeError
  | PDict d => emit (ELog (LogReceived (List.length d))) ;;; raise TypeError
  | _ => raise TypeError
  end.

Definition handle_message (w : World) (update : Update) : M unit :=
  match message update with
  | None => ret tt
  | Some msg =>
      if negb (opt_str_truthy (text msg)) then ret tt
      else
        let text := strip (match text msg with Some s => s | None => [] end) in
        let user := _telegram_user_id update in
        send_typing w update ;;;
        emit (ELog (LogCalling user (slice_to 50 text))) ;;;
        response_text <- call_bcn_api w user text ;;
        deliver w response_text
  end.

End Bot.

(** ** Configuration *)

Section Config.

(** [str.upper] and the attributes of the [logging] module by name, both
    of the running interpreter. *)
Variable upper : pystr -> pystr.
Variable logging_attr : pystr -> option pyval.

(** [logging.INFO] *)
Definition logging_INFO : pyval := PInt 20.

(** The process environment once [load_dotenv()] has run. *)
Definition Env := pystr -> option pystr.

(** [os.getenv(name, default)] *)
Definition getenv (env : Env) (name default : pystr) : pystr :=
  match env name with
  | Some v => v
  | None => default
  end.

Definition NO_TOKEN : pystr :=
  lit "TELEGRAM_BOT_TOKEN is not set. Configure it in the environment or .env file.".

Definition _load_config (env : Env) : outcome (pystr * pystr * pyval) :=
  let token := getenv env (lit "TELEGRAM_BOT_TOKEN") [] in
  let api_base := getenv env (lit "BCN_API_BASE_URL") (lit "http://localhost:8000") in
  let log_level_name := upper (getenv env (lit "BCN_BOT_LOG_LEVEL") (lit "INFO")) in
  let log_level :=
    match logging_attr log_level_name with
    | Some v => v
    | None => logging_INFO
    end in
  if negb (truthy token) then Raise (RuntimeError NO_TOKEN)
  else Ret (token, api_base, log_level).

End Config.

(** ** Vocabulary of the statements *)

(** The newline as a literal, for building the inputs of the examples. *)
Definition nl : string := String (ascii_of_nat 10) EmptyString.

(** [a] occurs in [s] as a contiguous piece. *)
Definition infix (a s : pystr) : Prop :=
  exists pre post, s = pre ++ a ++ post.

(** The bodies of the replies among the effects of a run. *)
Fixpoint replies (t : list effect) : list pystr :=
  match t with
  | [] => []
  | EReplyText b :: t' => b :: replies t'
  | _ :: t' => replies t'
  end.

(** The backend requests among the effects of a run, as (user, message). *)
Fixpoint requests (t : list effect) : list (pystr * pystr) :=
  match t with
  | [] => []
  | EPost _ u msg :: t' => (u, msg) :: requests t'
  | _ :: t' => requests t'
  end.

(** The characters on which a [\d] class is known to be [0-9]: everything
    below U+0660, the first digit outside ASCII, and the General Punctuation
    block, which holds no digit. *)
Definition plain (c : N) : bool :=
  ((c <? 1632) || (8192 <=? c) && (c <? 8448))%N.

(** Leading newlines of a text, and the text behind them. *)
Fixpoint lead (s : pystr) : nat :=
  match s with
  | c :: s' => if is_char NL c then S (lead s') else 0
  | [] => 0
  end.

Fixpoint drop_nl (s : pystr) : pystr :=
  match s with
  | c :: s' => if is_char NL c then drop_nl s' else s
  | [] => []
  end.

(** No position of the text starts a run of three newlines. *)
Fixpoint short_runs (s : pystr) : Prop :=
  match s with
  | [] => True
  | c :: s' => (lead (c :: s') <= 2)%nat /\ short_runs s'
  end.

(** Two patterns of the same shape whose classes agree on the characters
    in [X]. *)
Inductive re_agree (X : N -> Prop) : re -> re -> Prop :=
| agree_chr p q : (forall c, X c -> p c = q c) -> re_agree X (Chr p) (Chr q)
| agree_str l : re_agree X (Str l) (Str l)
| agree_bol : re_agree X Bol Bol
| agree_star p q : (forall c, X c -> p c = q c) -> re_agree X (Star p) (Star q)
| agree_seq a a' b b' :
    re_agree X a a' -> re_agree X b b' -> re_agree X (Seq a b) (Seq a' b')
| agree_grp a a' : re_agree X a a' -> re_agree X (Grp a) (Grp a').

(** Whether every match of a pattern takes at least one character. *)
Fixpoint consumes (r : re) : bool :=
  match r with
  | Chr _ => true
  | Str l => truthy l
  | Bol => false
  | Star _ => false
  | Seq a b => consumes a || consumes b
  | Grp a => consumes a
  end.

(** The character before the position once [pre] has been passed. *)
Fixpoint last_or (pv : option N) (pre : pystr) : option N :=
  match pre with
  | [] => pv
  | c :: pre' => last_or (Some c) pre'
  end.

(** The replacement templates of the last two substitutions. *)
Definition T_ITEM : list titem := [TLit [NL]; TGrp1; TLit MARK_NUMBER].
Definition T_BLANK : list titem := [TLit [NL; NL]].

(** The text after the bold and label substitutions, which involve no
    [\d]. *)
Definition labelled (text : pystr) : pystr :=
  let text := sub re_bold [TLit MARK_BOLD; TGrp1] text in
  let text := sub re_why [TLit MARK_WHY; TGrp1] text in
  let text := sub (re_label "When:") [TLit MARK_WHEN; TGrp1] text in
  let text := sub (re_label "Where:") [TLit MARK_WHERE; TGrp1] text in
  let text := sub (re_label "Location:") [TLit MARK_LOCATION; TGrp1] text in
  let text := sub (re_label "Price:") [TLit MARK_PRICE; TGrp1] text in
  sub (re_label "More Info:") [TLit MARK_MORE_INFO; TGrp1] text.

(** [re.sub] of [\n{3,}] by two newlines. *)
Definition collapse (s : pystr) : pystr := sub_from re_blank T_BLANK 0 None s.

(** The inputs of the two worked examples of the specification. *)
Definition TITLE_INPUT : pystr :=
  lit ("**Title**" ++ nl ++ "1. foo" ++ nl ++ "When: tomorrow")%string.

Definition BLANKS_INPUT : pystr := lit ("a" ++ nl ++ nl ++ nl ++ nl ++ "b")%string.

(** An environment given by its bindings. *)
Definition env_of (l : list (pystr * pystr)) : Env :=
  fun name =>
    match find (fun kv => PyStr.eqb (fst kv) name) l with
    | Some kv => Some (snd kv)
    | None => None
    end.

(** [str.upper] on ASCII text. *)
Definition ascii_upper (s : pystr) : pystr :=
  map (fun c => if ((97 <=? c) && (c <=? 122))%N then (c - 32)%N else c) s.

(** The attributes of [logging] that a name in upper case can find and
    whose value is a number or a text: the levels, with the aliases [WARN]
    and [FATAL] and with [NOTSET], and [BASIC_FORMAT].  The module has one
    more such name, [_STYLES], whose value is a table of classes; it is left
    out here.  The table serves the worked examples only: the statements
    about [_load_config] hold for every [logging_attr]. *)
Definition level_names (name : pystr) : option pyval :=
  if PyStr.eqb name (lit "DEBUG") then Some (PInt 10)
  else if PyStr.eqb name (lit "INFO") then Some (PInt 20)
  else if PyStr.eqb name (lit "WARNING") then Some (PInt 30)
  else if PyStr.eqb name (lit "ERROR") then Some (PInt 40)
  else if PyStr.eqb name (lit "CRITICAL") then Some (PInt 50)
  else if PyStr.eqb name (lit "WARN") then Some (PInt 30)
  else if PyStr.eqb name (lit "FATAL") then Some (PInt 50)
  else if PyStr.eqb name (lit "NOTSET") then Some (PInt 0)
  else if PyStr.eqb name (lit "BASIC_FORMAT")
  then Some (PStr (lit "%(levelname)s:%(name)s:%(message)s"))
  else None.

(** Updates, users and worlds for the worked examples. *)
Definition alice : User :=
  {| user_id := 1001; username := Some (lit "alice"); first_name := lit "Alice" |}.
Definition nameless : User :=
  {| user_id := 42; username := None; first_name := lit "Bob" |}.
Definition update_of (t : option pystr) (u : option User) (c : option Chat) : Update :=
  {| message := Some {| text := t |}; effective_user := u; effective_chat := c |}.

Definition URL_DEFAULT : pystr := lit "http://localhost:8000".

Definition chat7 : Chat := {| chat_id := 7 |}.

Definition hello_update : Update := update_of (Some (lit "hello")) (Some alice) (Some chat7).


Definition answer (s : pystr) : pyval :=
  PDict [(lit "response", PStr s); (lit "correlation_id", PStr (lit "c-1"))].

Definition world_ok (body : pyval) : World :=
  {| chat_action_result := None;
     post_result := PostResponse 200 (Some body);
     reply_result := None |}.

Definition world_down : World :=
  {| chat_action_result := None;
     post_result := PostRaises ConnectError;
     reply_result := None |}.

Definition world_typing_ok : World :=
  {| chat_action_result := None;
     post_result := PostResponse 200 (Some (answer (lit "Try the MACBA.")));
     reply_result := None |}.

Definition world_typing_fails : World :=
  {| chat_action_result := Some TelegramError;
     post_result := PostResponse 200 (Some (answer (lit "Try the MACBA.")));
     reply_result := None |}.

(** A text one character over the cap. *)
Definition OVERLONG : pystr := repeat 97%N 4001.

(** An environment that sets only the token. *)
Definition token_only : Env := env_of [(lit "TELEGRAM_BOT_TOKEN", lit "123:abc")].

(** The URL a request goes to. *)
Definition chat_url (base : pystr) : pystr := rstrip_char 47 base ++ lit "/chat".

(** The ways the backend call fails: network error, timeout, a status
    outside 2xx, a body that is not JSON. *)
Definition backend_failure (w : World) : Prop :=
  post_result w = PostRaises ConnectError
  \/ post_result w = PostRaises TimeoutException
  \/ (exists st body, post_result w = PostResponse st body
                      /\ ~ (200 <= st <= 299)%Z)
  \/ (exists st, post_result w = PostResponse st None).

Arguments clip : simpl never.
Arguments is_char : simpl never.
Arguments deliver : simpl never.
Arguments slice_to : simpl never.
Arguments _format_for_telegram : simpl never.

(** ** The command handlers *)

Definition QUOTE : N := 34.

(** What follows the name in the greeting of [start]. *)
Definition GREETING_TAIL : pystr :=
  lit "! I'm your BCN Art Compass bot." ++ [NL; NL]
  ++ lit "Tell me what kind of art or cultural events you're interested in, "
  ++ lit "and I'll ask the BCN Art Compass AI to help you discover exhibitions "
  ++ lit "and galleries in Barcelona.".

(** The message of [help_command]; the place name holds the two code
    points U+00C3 U+00A0 of the source file. *)
Definition HELP_TEXT : pystr :=
  lit "You can send me any message like:" ++ [NL]
  ++ lit "- " ++ [QUOTE] ++ lit "I love sculpture and don't like video art"
  ++ [QUOTE; NL]
  ++ lit "- " ++ [QUOTE] ++ lit "What art exhibitions are happening this weekend?"
  ++ [QUOTE; NL]
  ++ lit "- " ++ [QUOTE] ++ lit "I'm in Gr" ++ [195; 160]%N
  ++ lit "cia, suggest something nearby" ++ [QUOTE; NL; NL]
  ++ lit "I'll forward it to BCN Art Compass and reply with its recommendations.".

(** [await update.message.reply_text(msg)] where [update.message] has not
    been tested: on [None] the attribute access raises. *)
Definition message_reply_text (w : World) (update : Update) (body : pystr)
  : M unit :=
  match message update with
  | None => raise AttributeError
  | Some _ => reply_text w body
  end.

Definition start (w : World) (update : Update) : M unit :=
  let user := effective_user update in
  let name :=
    match user with
    | Some u => if truthy (first_name u) then first_name u else lit "there"
    | None => lit "there"
    end in
  let msg := lit "Hi " ++ name ++ GREETING_TAIL in
  message_reply_text w update msg.

Definition help_command (w : World) (update : Update) : M unit :=
  message_reply_text w update HELP_TEXT.

(** ** Further vocabulary *)

(** The update with its user removed. *)
Definition without_user (upd : Update) : Update :=
  {| message := message upd;
     effective_user := None;
     effective_chat := effective_chat upd |}.

(** The URLs requested among the effects of a run. *)
Fixpoint posted_urls (t : list effect) : list pystr :=
  match t with
  | [] => []
  | EPost url _ _ :: t' => url :: posted_urls t'
  | _ :: t' => posted_urls t'
  end.

(** The errors logged among the effects of a run. *)
Fixpoint logged_errors (t : list effect) : list exn :=
  match t with
  | [] => []
  | ELog (LogError e) :: t' => e :: logged_errors t'
  | _ :: t' => logged_errors t'
  end.

(** A pattern none of whose matches can avoid the character [c]. *)
Inductive needs (c : N) : re -> Prop :=
| needs_chr p : (forall x, p x = true -> x = c) -> needs c (Chr p)
| needs_str l : In c l -> needs c (Str l)
| needs_seq_l a b : needs c a -> needs c (Seq a b)
| needs_seq_r a b : needs c b -> needs c (Seq a b)
| needs_grp a : needs c a -> needs c (Grp a).

(** A pattern without the line anchor. *)
Fixpoint anchor_free (r : re) : bool :=
  match r with
  | Bol => false
  | Seq a b => anchor_free a && anchor_free b
  | Grp a => anchor_free a
  | _ => true
  end.

(** Two match states over the same text with the same capture. *)
Definition same_text (a b : mstate) : Prop :=
  rest a = rest b /\ group1 a = group1 b.

Definition same_result (x y : option mstate) : Prop :=
  match x, y with
  | Some a, Some b => same_text a b
  | None, None => True
  | _, _ => False
  end.

(** The template of the bold substitution. *)
Definition T_BOLD : list titem := [TLit MARK_BOLD; TGrp1].

(** The characters of a text other than newlines. *)
Definition inked (s : pystr) : pystr := filter (fun c => negb (is_char NL c)) s.

(** A user with the given first name, and updates for the examples. *)
Definition named (fn : pystr) : User :=
  {| user_id := 5; username := None; first_name := fn |}.

Definition world_response (v : pyval) : World :=
  world_ok (PDict [(lit "response", v)]).

Definition world_cancelled : World :=
  {| chat_action_result := None;
     post_result := PostRaises CancelledError;
     reply_result := None |}.

(** The world with another outcome of the backend request. *)
Definition with_post (w : World) (po : post_outcome) : World :=
  {| chat_action_result := chat_action_result w;
     post_result := po;
     reply_result := reply_result w |}.

(** Whether an object is a [str]. *)
Definition is_str (v : pyval) : bool :=
  match v with PStr _ => true | _ => false end.


(** * Properties *)

(** ** User identifier *)

(** C4. The identifier follows the chain username, numeric user id, chat
    id, sentinel: a truthy username [n] gives [tg_n]; without one, a
    non-zero user id [i] gives [tg_id_i]; without a user, a non-zero chat id
    [i] gives [tg_chat_i]; with neither user nor chat the result is
    [tg_unknown].  In particular alice, 42 and 7 give [tg_alice],
    [tg_id_42] and [tg_chat_7]. *)
Theorem telegram_user_id_chain :
  (forall upd u n,
      effective_user upd = Some u -> username u = Some n -> n <> [] ->
      _telegram_user_id upd = lit "tg_" ++ n)
  /\ (forall upd u,
      effective_user upd = Some u -> opt_str_truthy (username u) = false ->
      user_id u <> 0%Z ->
      _telegram_user_id upd = lit "tg_id_" ++ str_of_int (user_id u))
  /\ (forall upd c,
      effective_user upd = None -> effective_chat upd = Some c ->
      chat_id c <> 0%Z ->
      _telegram_user_id upd = lit "tg_chat_" ++ str_of_int (chat_id c))
  /\ (forall upd,
      effective_user upd = None -> effective_chat upd = None ->
      _telegram_user_id upd = lit "tg_unknown")
  /\ (forall upd u,
      effective_user upd = Some u -> username u = Some (lit "alice") ->
      _telegram_user_id upd = lit "tg_alice")
  /\ (forall upd u,
      effective_user upd = Some u -> username u = None -> user_id u = 42%Z ->
      _telegram_user_id upd = lit "tg_id_42")
  /\ (forall upd c,
      effective_user upd = None -> effective_chat upd = Some c ->
      chat_id c = 7%Z ->
      _telegram_user_id upd = lit "tg_chat_7").
Proof.
  assert (Hname : forall upd u n,
      effective_user upd = Some u -> username u = Some n -> n <> [] ->
      _telegram_user_id upd = lit "tg_" ++ n).
  { intros upd u n Hu Hn Hne.
    unfold _telegram_user_id, by_username. rewrite Hu, Hn.
    destruct n as [|c n']; [congruence | reflexivity]. }
  assert (Hid : forall upd u,
      effective_user upd = Some u -> opt_str_truthy (username u) = false ->
      user_id u <> 0%Z ->
      _telegram_user_id upd = lit "tg_id_" ++ str_of_int (user_id u)).
  { intros upd u Hu Hn Hz.
    unfold _telegram_user_id, by_username, by_user_id. rewrite Hu.
    assert (Ht : int_truthy (user_id u) = true).
    { unfold int_truthy. apply negb_true_iff, Z.eqb_neq, Hz. }
    rewrite Ht.
    destruct (username u) as [n|]; [|reflexivity].
    simpl in Hn. rewrite Hn. reflexivity. }
  assert (Hchat : forall upd c,
      effective_user upd = None -> effective_chat upd = Some c ->
      chat_id c <> 0%Z ->
      _telegram_user_id upd = lit "tg_chat_" ++ str_of_int (chat_id c)).
  { intros upd c Hu Hc Hz.
    unfold _telegram_user_id, by_username, by_user_id, by_chat_id.
    rewrite Hu, Hc.
    assert (Ht : int_truthy (chat_id c) = true).
    { unfold int_truthy. apply negb_true_iff, Z.eqb_neq, Hz. }
    rewrite Ht. reflexivity. }
  repeat split; auto.
  - intros upd Hu Hc.
    unfold _telegram_user_id, by_username, by_user_id, by_chat_id.
    rewrite Hu, Hc. reflexivity.
  - intros upd u Hu Hn. apply (Hname upd u _ Hu Hn). discriminate.
  - intros upd u Hu Hn Hi.
    rewrite (Hid upd u Hu); rewrite ?Hn, ?Hi; [reflexivity | reflexivity | discriminate].
  - intros upd c Hu Hc Hi.
    rewrite (Hchat upd c Hu Hc); rewrite ?Hi; [reflexivity | discriminate].
Qed.

Lemma telegram_user_id_chain_witness :
  _telegram_user_id (update_of None (Some alice) (Some {| chat_id := 7 |})) = lit "tg_alice"
  /\ _telegram_user_id (update_of None (Some nameless) (Some {| chat_id := 7 |})) = lit "tg_id_42"
  /\ _telegram_user_id (update_of None None (Some {| chat_id := 7 |})) = lit "tg_chat_7"
  /\ _telegram_user_id (update_of None None None) = lit "tg_unknown".
Proof.
  destruct telegram_user_id_chain as (_ & _ & _ & Hnone & Halice & H42 & H7).
  split; [|split; [|split]].
  - apply (Halice _ alice); reflexivity.
  - apply (H42 _ nameless); reflexivity.
  - apply (H7 _ {| chat_id := 7 |}); reflexivity.
  - apply Hnone; reflexivity.
Defined.

(** ** Effects of a sequence *)

Lemma bind_fst {A B} (c : M A) (f : A -> M B) :
  fst (bind c f) =
  fst c ++ match snd c with Ret a => fst (f a) | Raise _ => [] end.
Proof.
  destruct c as [t [a|e]]; simpl.
  - destruct (f a); reflexivity.
  - now rewrite app_nil_r.
Qed.

Lemma bind_snd {A B} (c : M A) (f : A -> M B) :
  snd (bind c f) =
  match snd c with Ret a => snd (f a) | Raise e => Raise e end.
Proof.
  destruct c as [t [a|e]]; simpl; [destruct (f a)|]; reflexivity.
Qed.

Lemma replies_app (a b : list effect) : replies (a ++ b) = replies a ++ replies b.
Proof.
  induction a as [|x a IH]; [reflexivity|].
  destruct x; simpl; rewrite IH; reflexivity.
Qed.

(** ** The backend client *)

(** [call_bcn_api], outcome by outcome of the request. *)
Lemma call_bcn_api_cases (base : pystr) (w : World) (user msg : pystr) :
  call_bcn_api base w user msg =
  match post_result w with
  | PostRaises e =>
      if is_Exception e
      then ([EPost (chat_url base) user msg; ELog (LogError e)], Ret (PStr APOLOGY))
      else ([EPost (chat_url base) user msg], Raise e)
  | PostResponse st body =>
      if ((200 <=? st) && (st <=? 299))%Z then
        match body with
        | Some (PDict d) =>
            ([EPost (chat_url base) user msg],
             Ret (if val_truthy (dict_get d (lit "response"))
                  then dict_get d (lit "response") else PStr FALLBACK))
        | Some _ =>
            ([EPost (chat_url base) user msg; ELog (LogError AttributeError)],
             Ret (PStr APOLOGY))
        | None =>
            ([EPost (chat_url base) user msg; ELog (LogError JSONDecodeError)],
             Ret (PStr APOLOGY))
        end
      else ([EPost (chat_url base) user msg; ELog (LogError (HTTPStatusError st))],
            Ret (PStr APOLOGY))
  end.
Proof.
  unfold call_bcn_api, post, chat_url.
  destruct (post_result w) as [e|st body]; simpl.
  - destruct e; reflexivity.
  - unfold raise_for_status; simpl.
    destruct ((200 <=? st) && (st <=? 299))%Z; simpl; [|reflexivity].
    destruct body as [[| | | | | |d]|]; reflexivity.
Qed.

(** C1. When the request succeeds with a 2xx status and the body parses to a
    JSON object, [call_bcn_api] returns its [response] field if that is a
    non-empty string, and the fallback text if the field is missing or
    empty; nothing is logged as an error. *)
Theorem call_bcn_api_success (base : pystr) (w : World) (user msg : pystr)
        (st : Z) (d : list (pystr * pyval)) :
  post_result w = PostResponse st (Some (PDict d)) ->
  (200 <= st <= 299)%Z ->
  (forall s, dict_find d (lit "response") = Some (PStr s) -> s <> [] ->
             call_bcn_api base w user msg
             = ([EPost (chat_url base) user msg], Ret (PStr s)))
  /\ (dict_find d (lit "response") = None
      \/ dict_find d (lit "response") = Some (PStr []) ->
      call_bcn_api base w user msg
      = ([EPost (chat_url base) user msg], Ret (PStr FALLBACK))).
Proof.
  intros Hw Hst.
  assert (H2xx : ((200 <=? st) && (st <=? 299))%Z = true).
  { apply andb_true_iff; split; apply Z.leb_le; lia. }
  split.
  - intros s Hs Hne.
    rewrite call_bcn_api_cases, Hw, H2xx. unfold dict_get. rewrite Hs.
    destruct s as [|c s']; [congruence | reflexivity].
  - intros [Hs|Hs]; rewrite call_bcn_api_cases, Hw, H2xx;
      unfold dict_get; rewrite Hs; reflexivity.
Qed.

Lemma call_bcn_api_success_witness :
  call_bcn_api URL_DEFAULT (world_ok (answer (lit "Try the MACBA."))) (lit "tg_alice") (lit "hello")
  = ([EPost (lit "http://localhost:8000/chat") (lit "tg_alice") (lit "hello")],
     Ret (PStr (lit "Try the MACBA.")))
  /\ call_bcn_api URL_DEFAULT (world_ok (answer [])) (lit "tg_alice") (lit "hello")
  = ([EPost (lit "http://localhost:8000/chat") (lit "tg_alice") (lit "hello")],
     Ret (PStr (lit "No response from BCN Art Compass."))).
Proof.
  split.
  - refine (proj1 (@call_bcn_api_success URL_DEFAULT
                     (world_ok (answer (lit "Try the MACBA."))) _ _ 200 _ eq_refl _)
                  _ eq_refl _); [lia | discriminate].
  - refine (proj2 (@call_bcn_api_success URL_DEFAULT
                     (world_ok (answer [])) _ _ 200 _ eq_refl _) _);
      [lia | right; reflexivity].
Defined.

(** C2. Whatever the user and the message, when the backend call fails by
    a network error, a timeout, a status outside 2xx or a body that is not
    JSON, [call_bcn_api] raises nothing: it logs the error and returns the
    apology text. *)
Theorem call_bcn_api_fail_soft (base : pystr) (w : World) (user msg : pystr) :
  backend_failure w ->
  snd (call_bcn_api base w user msg) = Ret (PStr APOLOGY)
  /\ exists e, fst (call_bcn_api base w user msg)
               = [EPost (chat_url base) user msg; ELog (LogError e)].
Proof.
  intros [H|[H|[(st & body & H & Hst)|(st & H)]]];
    rewrite call_bcn_api_cases, H.
  - split; [reflexivity | eexists; reflexivity].
  - split; [reflexivity | eexists; reflexivity].
  - assert (Hno : ((200 <=? st) && (st <=? 299))%Z = false).
    { apply andb_false_iff.
      destruct (Z.leb_spec 200 st); [right|left; reflexivity].
      apply Z.leb_gt. lia. }
    rewrite Hno. split; [reflexivity | eexists; reflexivity].
  - destruct ((200 <=? st) && (st <=? 299))%Z;
      (split; [reflexivity | eexists; reflexivity]).
Qed.

Lemma call_bcn_api_fail_soft_witness :
  snd (call_bcn_api URL_DEFAULT world_down (lit "tg_alice") (lit "hello"))
  = Ret (PStr APOLOGY)
  /\ exists e, fst (call_bcn_api URL_DEFAULT world_down (lit "tg_alice") (lit "hello"))
               = [EPost (chat_url URL_DEFAULT) (lit "tg_alice") (lit "hello");
                  ELog (LogError e)].
Proof.
  apply call_bcn_api_fail_soft. left. reflexivity.
Defined.

(** ** The free-text handler *)

Lemma deliver_replies (d : N -> bool) (w : World) (v : pyval) :
  replies (fst (deliver d w v)) =
  match v with
  | PStr s => [clip (_format_for_telegram d s)]
  | _ => []
  end.
Proof.
  destruct v; try reflexivity.
  unfold deliver, reply_text. simpl.
  destruct (reply_result w); reflexivity.
Qed.

Lemma call_bcn_api_replies (base : pystr) (w : World) (user msg : pystr) :
  replies (fst (call_bcn_api base w user msg)) = [].
Proof.
  rewrite call_bcn_api_cases.
  destruct (post_result w) as [e|st body].
  - destruct (is_Exception e); reflexivity.
  - destruct ((200 <=? st) && (st <=? 299))%Z; [|reflexivity].
    destruct body as [[| | | | | |dd]|]; reflexivity.
Qed.

(** The handler on an update that carries text, up to the await of the
    typing indicator. *)
Lemma handle_message_text (base : pystr) (d : N -> bool) (w : World)
      (upd : Update) (msg : Message) (raw : pystr) :
  message upd = Some msg -> text msg = Some raw -> raw <> [] ->
  handle_message base d w upd =
  (send_typing w upd ;;;
   emit (ELog (LogCalling (_telegram_user_id upd) (slice_to 50 (strip raw)))) ;;;
   response_text <- call_bcn_api base w (_telegram_user_id upd) (strip raw) ;;
   deliver d w response_text).
Proof.
  intros Hm Ht Hne. unfold handle_message. rewrite Hm, Ht.
  destruct raw as [|c raw']; [congruence | reflexivity].
Qed.

Lemma send_typing_ok (w : World) (upd : Update) (c : Chat) :
  effective_chat upd = Some c -> chat_action_result w = None ->
  send_typing w upd = ([ESendChatAction (chat_id c) (lit "typing")], Ret tt).
Proof.
  intros Hc Hw. unfold send_typing. rewrite Hc, Hw. reflexivity.
Qed.

Lemma send_typing_replies (w : World) (upd : Update) :
  replies (fst (send_typing w upd)) = [].
Proof.
  unfold send_typing.
  destruct (effective_chat upd); [|reflexivity].
  destruct (chat_action_result w); reflexivity.
Qed.

Lemma clip_long (t : pystr) :
  (4000 < len t)%nat ->
  clip t = slice_to 3996 t ++ lit "..." /\ len (clip t) = 3999%nat.
Proof.
  intros H. unfold clip.
  destruct (Nat.ltb_spec 4000 (len t)) as [_|Hle]; [|lia].
  split; [reflexivity|].
  unfold len, slice_to in *. rewrite length_app, length_firstn.
  change (List.length (lit "...")) with 3%nat. lia.
Qed.

Lemma clip_short (t : pystr) : (len t <= 4000)%nat -> clip t = t.
Proof.
  intros H. unfold clip.
  destruct (Nat.ltb_spec 4000 (len t)) as [Hlt|_]; [lia | reflexivity].
Qed.

(** C5. An update without a message, or whose message has no text or the
    empty text, makes [handle_message] return at once: no effect at all (no
    typing indicator, no backend request, no reply, no log line) and no
    exception. *)
Theorem handle_message_ignores_no_text (base : pystr) (d : N -> bool)
        (w : World) (upd : Update) :
  (message upd = None
   \/ exists msg, message upd = Some msg
                  /\ (text msg = None \/ text msg = Some [])) ->
  handle_message base d w upd = ([], Ret tt).
Proof.
  intros [H|(msg & H & [Ht|Ht])]; unfold handle_message; rewrite H;
    [|rewrite Ht..]; reflexivity.
Qed.

Lemma handle_message_ignores_no_text_witness :
  handle_message URL_DEFAULT ascii_digit world_down (update_of (Some []) (Some alice) (Some chat7))
  = ([], Ret tt).
Proof.
  apply handle_message_ignores_no_text.
  right. exists {| text := Some [] |}. split; [reflexivity | right; reflexivity].
Defined.

(** C6, as the code has it.  On a text message whose typing indicator fails
    to send, [handle_message] stops with that failure: the only effect is
    the attempted indicator; no backend request is made and no reply is
    sent. *)
Theorem handle_message_typing_failure_aborts (base : pystr) (d : N -> bool) :
  handle_message base d world_typing_fails hello_update
  = ([ESendChatAction 7 (lit "typing")], Raise TelegramError).
Proof. reflexivity. Qed.

Lemma requests_app (a b : list effect) :
  requests (a ++ b) = requests a ++ requests b.
Proof.
  induction a as [|x a IH]; [reflexivity|].
  destruct x; simpl; rewrite IH; reflexivity.
Qed.

Lemma call_bcn_api_requests (base : pystr) (w : World) (user msg : pystr) :
  requests (fst (call_bcn_api base w user msg)) = [(user, msg)].
Proof.
  rewrite call_bcn_api_cases.
  destruct (post_result w) as [e|st body].
  - destruct (is_Exception e); reflexivity.
  - destruct ((200 <=? st) && (st <=? 299))%Z; [|reflexivity].
    destruct body as [[| | | | | |dd]|]; reflexivity.
Qed.

Lemma deliver_requests (d : N -> bool) (w : World) (v : pyval) :
  requests (fst (deliver d w v)) = [].
Proof.
  destruct v; try reflexivity.
  unfold deliver, reply_text. simpl.
  destruct (reply_result w); reflexivity.
Qed.

(** The effects of the handler once the typing indicator is sent. *)
Lemma handle_message_trace (base : pystr) (d : N -> bool) (w : World)
      (upd : Update) (msg : Message) (raw : pystr) (c : Chat) :
  message upd = Some msg -> text msg = Some raw -> raw <> [] ->
  effective_chat upd = Some c -> chat_action_result w = None ->
  fst (handle_message base d w upd) =
  [ESendChatAction (chat_id c) (lit "typing");
   ELog (LogCalling (_telegram_user_id upd) (slice_to 50 (strip raw)))]
  ++ fst (call_bcn_api base w (_telegram_user_id upd) (strip raw))
  ++ match snd (call_bcn_api base w (_telegram_user_id upd) (strip raw)) with
     | Ret v => fst (deliver d w v)
     | Raise _ => []
     end.
Proof.
  intros Hm Ht Hne Hc Hw.
  rewrite (handle_message_text base d w upd Hm Ht Hne),
    (send_typing_ok w upd Hc Hw).
  destruct (call_bcn_api base w (_telegram_user_id upd) (strip raw))
    as [t1 [v|e]]; simpl.
  - destruct (deliver d w v) as [t2 r2]. reflexivity.
  - rewrite app_nil_r. reflexivity.
Qed.



(** The cap at work: a text of 4001 characters is cut to 3996 and the dots. *)
Lemma clip_overlong :
  clip OVERLONG = repeat 97%N 3996 ++ lit "..." /\ len (clip OVERLONG) = 3999%nat.
Proof.
  assert (H : (4000 < len OVERLONG)%nat).
  { unfold len, OVERLONG. rewrite repeat_length. lia. }
  destruct (clip_long _ H) as [Hc Hl]. split; [|exact Hl].
  rewrite Hc. apply (f_equal (fun x => x ++ lit "...")).
  unfold slice_to, OVERLONG.
  change 4001%nat with (3996 + 5)%nat.
  rewrite repeat_app, firstn_app, repeat_length, Nat.sub_diag, firstn_O, app_nil_r.
  apply firstn_all2. rewrite repeat_length. lia.
Qed.

(** ** Configuration *)

(** C9. [_load_config] raises exactly when the token variable is absent
    or empty.  With a token it returns; the base URL is then
    [http://localhost:8000] when its variable is absent, and the level is
    [logging.INFO] when the verbosity variable is absent. *)
Theorem load_config_fail_fast (upper : pystr -> pystr)
        (logging_attr : pystr -> option pyval) :
  upper (lit "INFO") = lit "INFO" ->
  logging_attr (lit "INFO") = Some logging_INFO ->
  forall env : Env,
    ((exists e, _load_config upper logging_attr env = Raise e)
     <-> (env (lit "TELEGRAM_BOT_TOKEN") = None
          \/ env (lit "TELEGRAM_BOT_TOKEN") = Some []))
    /\ (forall tok, env (lit "TELEGRAM_BOT_TOKEN") = Some tok -> tok <> [] ->
         exists api_base log_level,
           _load_config upper logging_attr env = Ret (tok, api_base, log_level)
           /\ (env (lit "BCN_API_BASE_URL") = None ->
               api_base = lit "http://localhost:8000")
           /\ (env (lit "BCN_BOT_LOG_LEVEL") = None ->
               log_level = logging_INFO)).
Proof.
  intros Hup Hinfo env. split.
  - unfold _load_config, getenv.
    destruct (env (lit "TELEGRAM_BOT_TOKEN")) as [[|c tok]|]; simpl.
    + split; [intros _; right; reflexivity | intros _; eexists; reflexivity].
    + split; [intros [e He]; discriminate | intros [H|H]; discriminate].
    + split; [intros _; left; reflexivity | intros _; eexists; reflexivity].
  - intros tok Htok Hne. unfold _load_config, getenv. rewrite Htok.
    destruct tok as [|c tok']; [congruence|]. simpl negb. cbv iota.
    eexists; eexists. split; [reflexivity|]. split.
    + intros H. rewrite H. reflexivity.
    + intros H. rewrite H, Hup, Hinfo. reflexivity.
Qed.

Lemma load_config_fail_fast_witness :
  _load_config ascii_upper level_names token_only
  = Ret (lit "123:abc", lit "http://localhost:8000", logging_INFO)
  /\ exists e, _load_config ascii_upper level_names (env_of []) = Raise e.
Proof.
  destruct (@load_config_fail_fast ascii_upper level_names eq_refl eq_refl token_only)
    as [_ Hok].
  destruct (@load_config_fail_fast ascii_upper level_names eq_refl eq_refl (env_of []))
    as [Hraise _].
  split.
  - destruct (Hok (lit "123:abc") eq_refl) as (b & l & Heq & Hb & Hl);
      [discriminate|].
    rewrite Heq, (Hb eq_refl), (Hl eq_refl). reflexivity.
  - apply Hraise. left. reflexivity.
Defined.

(** ** Matching *)

Section Agreement.

Variable X : N -> Prop.

Lemma lit_from_Forall (l : pystr) :
  forall st st', Forall X (rest st) -> lit_from l st = Some st' ->
                 Forall X (rest st').
Proof.
  induction l as [|x l IH]; intros st st' Hst H; simpl in H.
  - now inversion H; subst.
  - destruct (rest st) as [|c s'] eqn:E; [discriminate|].
    destruct (c =? x)%N; [|discriminate].
    apply (IH (advance st c s') st'); [exact (Forall_inv_tail Hst) | exact H].
Qed.

Lemma star_from_agree (p q : N -> bool) :
  (forall c, X c -> p c = q c) ->
  forall s st k1 k2,
    Forall X s -> Forall X (rest st) ->
    (forall st', Forall X (rest st') -> k1 st' = k2 st') ->
    star_from p s st k1 = star_from q s st k2.
Proof.
  intros Hpq. induction s as [|c s IH]; intros st k1 k2 Hs Hst Hk; simpl.
  - apply Hk, Hst.
  - rewrite (Hpq c (Forall_inv Hs)).
    destruct (q c); [|apply Hk, Hst].
    rewrite (IH (advance st c s) k1 k2 (Forall_inv_tail Hs)
                (Forall_inv_tail Hs) Hk).
    rewrite (Hk st Hst). reflexivity.
Qed.

(** Patterns that agree on [X] match alike on a text over [X]. *)
Lemma m_agree (r1 r2 : re) :
  re_agree X r1 r2 ->
  forall st k1 k2,
    Forall X (rest st) ->
    (forall st', Forall X (rest st') -> k1 st' = k2 st') ->
    m r1 st k1 = m r2 st k2.
Proof.
  induction 1 as [p q Hpq|l| |p q Hpq|a a' b b' _ IHa _ IHb|a a' _ IHa];
    intros st k1 k2 Hst Hk; simpl.
  - destruct (rest st) as [|c s'] eqn:E; [reflexivity|].
    rewrite (Hpq c (Forall_inv Hst)).
    destruct (q c); [|reflexivity].
    apply Hk. exact (Forall_inv_tail Hst).
  - destruct (lit_from l st) as [st'|] eqn:E; [|reflexivity].
    apply Hk. exact (lit_from_Forall l st Hst E).
  - destruct (at_bol st); [apply Hk, Hst | reflexivity].
  - apply star_from_agree; assumption.
  - apply IHa; [assumption|]. intros st' Hst'. apply IHb; assumption.
  - apply IHa; [assumption|]. intros st' Hst'. apply Hk. exact Hst'.
Qed.

Lemma sub_from_agree (r1 r2 : re) (t : list titem) :
  re_agree X r1 r2 ->
  forall s n pv, Forall X s -> sub_from r1 t n pv s = sub_from r2 t n pv s.
Proof.
  intros Hr. induction s as [|c s IH]; intros n pv Hs; [reflexivity|].
  cbn [sub_from]. destruct n as [|n]; [|apply IH, (Forall_inv_tail Hs)].
  assert (Hm : match_at r1 pv (c :: s) = match_at r2 pv (c :: s)).
  { unfold match_at. apply m_agree; [assumption | exact Hs | reflexivity]. }
  rewrite Hm. destruct (match_at r2 pv (c :: s));
    rewrite (IH _ _ (Forall_inv_tail Hs)); reflexivity.
Qed.

End Agreement.

(** On a text of plain characters the formatter does not depend on which
    further digits [\d] knows. *)
Lemma format_plain (d : N -> bool) (text : pystr) :
  (forall c, plain c = true -> d c = ascii_digit c) ->
  forallb plain (labelled text) = true ->
  _format_for_telegram d text = _format_for_telegram ascii_digit text.
Proof.
  intros Hd Hp.
  change (_format_for_telegram d text)
    with (strip (sub re_blank T_BLANK (sub (re_item d) T_ITEM (labelled text)))).
  change (_format_for_telegram ascii_digit text)
    with (strip (sub re_blank T_BLANK
                   (sub (re_item ascii_digit) T_ITEM (labelled text)))).
  unfold sub at 2 4.
  rewrite (@sub_from_agree (fun c => plain c = true)
             (re_item d) (re_item ascii_digit) T_ITEM).
  - reflexivity.
  - unfold re_item, Plus. repeat constructor; auto.
  - apply Forall_forall. apply forallb_forall. exact Hp.
Qed.

(** ** The substitution resumes behind a match *)

Lemma lit_from_split (l : pystr) :
  forall st st', lit_from l st = Some st' -> rest st = l ++ rest st'.
Proof.
  induction l as [|x l IH]; intros st st' H; simpl in H.
  - now inversion H.
  - destruct (rest st) as [|c s'] eqn:E; [discriminate|].
    destruct (N.eqb_spec c x) as [->|]; [|discriminate].
    simpl. f_equal. exact (IH (advance st x s') st' H).
Qed.

Lemma star_from_split (p : N -> bool) (s : pystr) :
  forall st k fin,
    rest st = s -> star_from p s st k = Some fin ->
    exists st' pre, k st' = Some fin /\ s = pre ++ rest st'.
Proof.
  induction s as [|c s IH]; intros st k fin Hst H; simpl in H.
  - exists st, []. rewrite Hst. auto.
  - destruct (p c).
    + destruct (star_from p s (advance st c s) k) as [r|] eqn:E.
      * destruct (IH (advance st c s) k r eq_refl E) as (st' & pre & Hk & Hs).
        exists st', (c :: pre). inversion H; subst r. split; [exact Hk|].
        simpl. f_equal. exact Hs.
      * exists st, []. rewrite Hst. auto.
    + exists st, []. rewrite Hst. auto.
Qed.

(** A successful match hands its continuation a suffix of the text, a
    proper one when the pattern consumes. *)
Lemma m_split (r : re) :
  forall st k fin,
    m r st k = Some fin ->
    exists st' pre,
      k st' = Some fin /\ rest st = pre ++ rest st'
      /\ (consumes r = true -> pre <> []).
Proof.
  induction r as [p|l| |p|a IHa b IHb|a IHa]; intros st k fin H; simpl in H.
  - destruct (rest st) as [|c s'] eqn:E; [discriminate|].
    destruct (p c); [|discriminate].
    exists (advance st c s'), [c]. repeat split; auto. discriminate.
  - destruct (lit_from l st) as [st1|] eqn:E; [|discriminate].
    exists st1, l. split; [exact H|]. split; [exact (lit_from_split l st E)|].
    simpl. destruct l; [discriminate | intros _; discriminate].
  - destruct (at_bol st); [|discriminate].
    exists st, []. repeat split; auto. discriminate.
  - destruct (star_from_split p st k eq_refl H) as (st' & pre & Hk & Hs).
    exists st', pre. repeat split; auto. discriminate.
  - destruct (IHa _ _ _ H) as (st1 & pre1 & H1 & E1 & C1).
    destruct (IHb _ _ _ H1) as (st2 & pre2 & H2 & E2 & C2).
    exists st2, (pre1 ++ pre2). split; [exact H2|]. split.
    + rewrite E1, E2, app_assoc. reflexivity.
    + simpl. intros Hc. apply orb_true_iff in Hc as [Hc|Hc].
      * intros Hnil. apply app_eq_nil in Hnil as [Hn _]. exact (C1 Hc Hn).
      * intros Hnil. apply app_eq_nil in Hnil as [_ Hn]. exact (C2 Hc Hn).
  - destruct (IHa _ _ _ H) as (st1 & pre & H1 & E1 & C1).
    exists (capture st st1), pre. repeat split; auto.
Qed.

Lemma sub_from_skip (r : re) (t : list titem) (pre x : pystr) :
  forall pv,
    sub_from r t (List.length pre) pv (pre ++ x) = sub_from r t 0 (last_or pv pre) x.
Proof.
  induction pre as [|c pre IH]; intros pv; [reflexivity|].
  simpl. apply IH.
Qed.

(** Where a consuming pattern matches, [sub_from] emits the expanded
    template and goes on with the text behind the match. *)
Lemma sub_from_match (r : re) (t : list titem) (pv : option N) (s : pystr)
      (st : mstate) :
  consumes r = true -> match_at r pv s = Some st ->
  exists pre,
    pre <> [] /\ s = pre ++ rest st
    /\ sub_from r t 0 pv s
       = expand t (group1 st) ++ sub_from r t 0 (last_or pv pre) (rest st).
Proof.
  intros Hc Hm. unfold match_at in Hm.
  destruct (m_split r _ _ Hm) as (st' & pre & Hk & Hs & Hne).
  inversion Hk; subst st'. simpl in Hs.
  exists pre. split; [exact (Hne Hc)|]. split; [exact Hs|].
  destruct pre as [|c pre']; [exfalso; exact (Hne Hc eq_refl)|].
  rewrite Hs at 1. simpl app. cbn [sub_from].
  rewrite Hs in Hm. simpl app in Hm. unfold match_at. rewrite Hm.
  f_equal. rewrite length_app.
  replace (List.length pre' + List.length (rest st) - List.length (rest st))%nat
    with (List.length pre') by lia.
  apply sub_from_skip.
Qed.

(** Every pattern of the formatter consumes, so none matches the empty
    string. *)
Lemma formatter_patterns_consume (d : N -> bool) :
  Forall (fun r => consumes r = true)
         [re_bold; re_why; re_label "When:"; re_label "Where:";
          re_label "Location:"; re_label "Price:"; re_label "More Info:";
          re_item d; re_blank].
Proof. repeat constructor. Qed.

(** ** Collapsing blank lines *)

Lemma lead_drop_nl (s : pystr) : lead (drop_nl s) = 0%nat.
Proof.
  induction s as [|c s IH]; [reflexivity|].
  simpl. destruct (is_char NL c) eqn:E; [exact IH|].
  simpl. rewrite E. reflexivity.
Qed.

Lemma length_drop_nl (s : pystr) :
  (List.length (drop_nl s) + lead s = List.length s)%nat.
Proof.
  induction s as [|c s IH]; [reflexivity|].
  simpl. destruct (is_char NL c); simpl; lia.
Qed.

(** The greedy [\n*] with nothing behind it takes the whole run. *)
Lemma star_nl (s : pystr) :
  forall st, rest st = s ->
    exists st', star_from (is_char NL) s st Some = Some st'
                /\ rest st' = drop_nl s /\ group1 st' = group1 st.
Proof.
  induction s as [|c s IH]; intros st Hst; simpl.
  - exists st. auto.
  - destruct (is_char NL c).
    + destruct (IH (advance st c s) eq_refl) as (st' & -> & Hr & Hg).
      exists st'. auto.
    + exists st. auto.
Qed.

Lemma match_blank_none (pv : option N) (s : pystr) :
  (lead s < 3)%nat -> match_at re_blank pv s = None.
Proof.
  unfold match_at, re_blank.
  destruct s as [|c1 [|c2 [|c3 s]]]; simpl;
    repeat (match goal with |- context [is_char NL ?c] =>
              destruct (is_char NL c) end; simpl);
    intros H; try reflexivity; lia.
Qed.

Lemma match_blank_some (pv : option N) (s : pystr) :
  (3 <= lead s)%nat ->
  exists st', match_at re_blank pv s = Some st'
              /\ rest st' = drop_nl s /\ group1 st' = [].
Proof.
  unfold match_at, re_blank.
  destruct s as [|c1 [|c2 [|c3 s]]]; simpl; try lia;
    destruct (is_char NL c1); simpl; try lia;
    destruct (is_char NL c2); simpl; try lia.
  destruct (is_char NL c3); simpl; try lia.
  intros _. apply (@star_nl s). reflexivity.
Qed.

(** [\n{3,}] has no anchor: the character before the position is
    immaterial. *)
Lemma sub_blank_pv (s : pystr) :
  forall n pv pv',
    sub_from re_blank T_BLANK n pv s = sub_from re_blank T_BLANK n pv' s.
Proof.
  induction s as [|c s IH]; intros n pv pv'; [reflexivity|].
  cbn [sub_from]. destruct n as [|n]; [|reflexivity].
  destruct (Nat.lt_ge_cases (lead (c :: s)) 3) as [H|H].
  - rewrite !(@match_blank_none _ _ H). reflexivity.
  - destruct (@match_blank_some pv _ H) as (st1 & -> & Hr1 & Hg1).
    destruct (@match_blank_some pv' _ H) as (st2 & -> & Hr2 & Hg2).
    rewrite Hr1, Hr2, Hg1, Hg2. reflexivity.
Qed.

(** Passing over a run of newlines resumes behind it. *)
Lemma sub_blank_skip (s : pystr) :
  forall pv, sub_from re_blank T_BLANK (lead s) pv s = collapse (drop_nl s).
Proof.
  induction s as [|c s IH]; intros pv; [reflexivity|].
  simpl lead. simpl drop_nl. destruct (is_char NL c).
  - cbn [sub_from]. apply IH.
  - apply sub_blank_pv.
Qed.

Lemma collapse_copy (c : N) (s : pystr) :
  (lead (c :: s) < 3)%nat -> collapse (c :: s) = c :: collapse s.
Proof.
  intros H. unfold collapse. cbn [sub_from].
  rewrite (@match_blank_none _ _ H). f_equal. apply sub_blank_pv.
Qed.

Lemma collapse_run (c : N) (s : pystr) :
  (3 <= lead (c :: s))%nat ->
  collapse (c :: s) = NL :: NL :: collapse (drop_nl s).
Proof.
  intros H. unfold collapse at 1. cbn [sub_from].
  destruct (@match_blank_some None _ H) as (st & -> & Hr & Hg).
  rewrite Hr, Hg.
  pose proof (length_drop_nl (c :: s)) as Hlen.
  assert (Hc : is_char NL c = true).
  { simpl in H. destruct (is_char NL c); [reflexivity | lia]. }
  simpl in Hlen, H. simpl drop_nl. rewrite Hc in *.
  pose proof (length_drop_nl s) as Hlen'.
  replace (List.length s - List.length (drop_nl s))%nat with (lead s) by lia.
  rewrite sub_blank_skip. reflexivity.
Qed.

(** What [collapse] leaves: runs of at most two newlines, and as many
    leading newlines as before, up to two. *)
Lemma collapse_short_runs (n : nat) :
  forall s, (List.length s <= n)%nat ->
    lead (collapse s) = Nat.min (lead s) 2 /\ short_runs (collapse s).
Proof.
  induction n as [|n IH]; intros s Hn.
  - destruct s; [split; [reflexivity | exact I] | simpl in Hn; lia].
  - destruct s as [|c s]; [split; [reflexivity | exact I]|].
    simpl in Hn.
    destruct (Nat.lt_ge_cases (lead (c :: s)) 3) as [H|H].
    + rewrite (@collapse_copy c s H).
      destruct (IH s ltac:(lia)) as [Hl Hs].
      assert (Hlead : lead (c :: collapse s) = Nat.min (lead (c :: s)) 2).
      { simpl in *. destruct (is_char NL c); lia. }
      split; [exact Hlead|].
      split; [rewrite Hlead; lia | exact Hs].
    + rewrite (@collapse_run c s H).
      pose proof (length_drop_nl s) as Hlen.
      destruct (IH (drop_nl s) ltac:(lia)) as [Hl Hs].
      rewrite lead_drop_nl in Hl. simpl in Hl.
      split.
      * simpl. rewrite Hl. simpl in H. destruct (is_char NL c); lia.
      * simpl. rewrite Hl. repeat split; try lia. exact Hs.
Qed.

Lemma short_runs_no_triple (pre post : pystr) :
  short_runs (pre ++ [NL; NL; NL] ++ post) -> False.
Proof.
  induction pre as [|c pre IH]; intros H.
  - destruct H as [H _]. simpl in H. lia.
  - apply IH. exact (proj2 H).
Qed.

(** ** Stripping *)

Lemma lstrip_suffix (s : pystr) : exists a, s = a ++ lstrip s.
Proof.
  induction s as [|c s [a IH]]; [exists []; reflexivity|].
  simpl. destruct (isspace c).
  - exists (c :: a). simpl. f_equal. exact IH.
  - exists []. reflexivity.
Qed.

Lemma rstrip_prefix (s : pystr) : exists b, s = rstrip s ++ b.
Proof.
  unfold rstrip. destruct (lstrip_suffix (rev s)) as [a Ha].
  exists (rev a).
  rewrite <- rev_app_distr, <- Ha, rev_involutive. reflexivity.
Qed.

Lemma strip_infix (s : pystr) : infix (strip s) s.
Proof.
  unfold strip. destruct (lstrip_suffix s) as [a Ha].
  destruct (rstrip_prefix (lstrip s)) as [b Hb].
  exists a, b. rewrite <- Hb. exact Ha.
Qed.

Lemma lstrip_head (s : pystr) (c : N) (r : pystr) :
  lstrip s = c :: r -> isspace c = false.
Proof.
  induction s as [|x s IH]; [discriminate|].
  simpl. destruct (isspace x) eqn:E; [exact IH|].
  intros H. inversion H; subst. exact E.
Qed.

Lemma strip_head (s : pystr) (c : N) (r : pystr) :
  strip s = c :: r -> isspace c = false.
Proof.
  unfold strip. intros H.
  destruct (rstrip_prefix (lstrip s)) as [b Hb]. rewrite H in Hb.
  exact (@lstrip_head _ _ _ Hb).
Qed.

Lemma strip_last (s : pystr) (r : pystr) (c : N) :
  strip s = r ++ [c] -> isspace c = false.
Proof.
  unfold strip, rstrip. intros H.
  apply (f_equal (@rev N)) in H.
  rewrite rev_involutive, rev_app_distr in H. simpl in H.
  exact (@lstrip_head _ _ _ H).
Qed.

(** ** The formatter *)

(** C8. Whatever the input and whatever [\d] matches, the output of
    [_format_for_telegram] holds no three consecutive newlines and neither
    begins nor ends with a whitespace character; and, [\d] being [0-9] on
    plain characters, the text a, four newlines, b comes out as a, two
    newlines, b. *)
Theorem format_blank_lines_and_trim (d : N -> bool) :
  (forall text,
      ~ infix [NL; NL; NL] (_format_for_telegram d text)
      /\ (forall c r, _format_for_telegram d text = c :: r -> isspace c = false)
      /\ (forall r c, _format_for_telegram d text = r ++ [c] -> isspace c = false))
  /\ ((forall c, plain c = true -> d c = ascii_digit c) ->
      _format_for_telegram d BLANKS_INPUT = lit ("a" ++ nl ++ nl ++ "b")%string).
Proof.
  split.
  - intros text.
    change (_format_for_telegram d text)
      with (strip (collapse (sub (re_item d) T_ITEM (labelled text)))).
    set (x := sub (re_item d) T_ITEM (labelled text)).
    split; [|split].
    + intros (pre & post & H).
      destruct (strip_infix (collapse x)) as (a & b & Hab).
      rewrite H in Hab.
      destruct (@collapse_short_runs (List.length x) x (Nat.le_refl _))
        as [_ Hs].
      rewrite Hab in Hs.
      replace (a ++ (pre ++ [NL; NL; NL] ++ post) ++ b)
        with ((a ++ pre) ++ [NL; NL; NL] ++ (post ++ b)) in Hs
        by (rewrite <- !app_assoc; reflexivity).
      exact (@short_runs_no_triple _ _ Hs).
    + intros c r. apply strip_head.
    + intros r c. apply strip_last.
  - intros Hd. rewrite (@format_plain d BLANKS_INPUT Hd); reflexivity.
Qed.

Lemma format_blank_lines_and_trim_witness :
  _format_for_telegram ascii_digit BLANKS_INPUT = [97; 10; 10; 98]%N
  /\ ~ infix [NL; NL; NL] (_format_for_telegram ascii_digit TITLE_INPUT).
Proof.
  destruct (@format_blank_lines_and_trim ascii_digit) as [Hall Hex].
  split; [exact (Hex (fun c _ => eq_refl)) | exact (proj1 (Hall TITLE_INPUT))].
Defined.

(** C7. On the text [**Title**], [1. foo], [When: tomorrow] (three lines)
    the formatter puts the bold marker right before Title and drops the
    asterisks, puts a number marker between 1 and foo, and puts the
    calendar marker right before When:. *)
Theorem format_title_example (d : N -> bool) :
  (forall c, plain c = true -> d c = ascii_digit c) ->
  _format_for_telegram d TITLE_INPUT
  = MARK_BOLD ++ lit "Title" ++ [NL; NL]
    ++ lit "1" ++ MARK_NUMBER ++ lit "foo" ++ [NL]
    ++ MARK_WHEN ++ lit "When: tomorrow"
  /\ infix (MARK_BOLD ++ lit "Title") (_format_for_telegram d TITLE_INPUT)
  /\ infix (lit "1" ++ MARK_NUMBER ++ lit "foo") (_format_for_telegram d TITLE_INPUT)
  /\ infix (MARK_WHEN ++ lit "When:") (_format_for_telegram d TITLE_INPUT)
  /\ ~ In STAR (_format_for_telegram d TITLE_INPUT).
Proof.
  intros Hd.
  assert (Heq : _format_for_telegram d TITLE_INPUT
                = MARK_BOLD ++ lit "Title" ++ [NL; NL]
                  ++ lit "1" ++ MARK_NUMBER ++ lit "foo" ++ [NL]
                  ++ MARK_WHEN ++ lit "When: tomorrow").
  { rewrite (@format_plain d TITLE_INPUT Hd); reflexivity. }
  rewrite Heq. split; [reflexivity|]. split; [|split; [|split]].
  - exists [], ([NL; NL] ++ lit "1" ++ MARK_NUMBER ++ lit "foo" ++ [NL]
                ++ MARK_WHEN ++ lit "When: tomorrow").
    reflexivity.
  - exists (MARK_BOLD ++ lit "Title" ++ [NL; NL]),
      ([NL] ++ MARK_WHEN ++ lit "When: tomorrow").
    reflexivity.
  - exists (MARK_BOLD ++ lit "Title" ++ [NL; NL]
            ++ lit "1" ++ MARK_NUMBER ++ lit "foo" ++ [NL]),
      (lit " tomorrow").
    reflexivity.
  - vm_compute. intuition discriminate.
Qed.

Lemma format_title_example_witness :
  infix (MARK_BOLD ++ lit "Title") (_format_for_telegram ascii_digit TITLE_INPUT)
  /\ infix (lit "1" ++ MARK_NUMBER ++ lit "foo")
           (_format_for_telegram ascii_digit TITLE_INPUT)
  /\ infix (MARK_WHEN ++ lit "When:") (_format_for_telegram ascii_digit TITLE_INPUT).
Proof.
  destruct (@format_title_example ascii_digit (fun c _ => eq_refl))
    as (_ & H1 & H2 & H3 & _).
  repeat split; assumption.
Defined.

(** * Further properties *)

(** ** User identifier *)

(** X1. Every identifier begins with [tg_]; in particular none is empty. *)
Theorem telegram_user_id_prefix (upd : Update) :
  exists r, _telegram_user_id upd = lit "tg_" ++ r.
Proof.
  unfold _telegram_user_id, by_username, by_user_id, by_chat_id.
  destruct (effective_user upd) as [u|].
  - destruct (username u) as [n|].
    + destruct (truthy n); [eexists; reflexivity|].
      destruct (int_truthy (user_id u)); [exists (lit "id_" ++ str_of_int (user_id u)); reflexivity|].
      destruct (effective_chat upd) as [c|]; [|exists (lit "unknown"); reflexivity].
      destruct (int_truthy (chat_id c));
        [exists (lit "chat_" ++ str_of_int (chat_id c)) | exists (lit "unknown")];
        reflexivity.
    + destruct (int_truthy (user_id u)); [exists (lit "id_" ++ str_of_int (user_id u)); reflexivity|].
      destruct (effective_chat upd) as [c|]; [|exists (lit "unknown"); reflexivity].
      destruct (int_truthy (chat_id c));
        [exists (lit "chat_" ++ str_of_int (chat_id c)) | exists (lit "unknown")];
        reflexivity.
  - destruct (effective_chat upd) as [c|]; [|exists (lit "unknown"); reflexivity].
    destruct (int_truthy (chat_id c));
      [exists (lit "chat_" ++ str_of_int (chat_id c)) | exists (lit "unknown")];
      reflexivity.
Qed.

(** X2. The guards test truthiness: a user whose username is missing or
    empty and whose id is 0 counts for nothing, and the identifier is the
    one the update would get without any user. *)
Theorem telegram_user_id_falsy_user (upd : Update) (u : User) :
  effective_user upd = Some u ->
  opt_str_truthy (username u) = false -> user_id u = 0%Z ->
  _telegram_user_id upd = _telegram_user_id (without_user upd).
Proof.
  intros Hu Hn Hi.
  unfold _telegram_user_id, by_username, by_user_id, by_chat_id, without_user.
  simpl. rewrite Hu, Hi. simpl.
  destruct (username u) as [n|]; [simpl in Hn; rewrite Hn|]; reflexivity.
Qed.

Lemma telegram_user_id_falsy_user_witness :
  _telegram_user_id
    (update_of None (Some {| user_id := 0; username := Some []; first_name := lit "Zed" |})
               (Some chat7))
  = lit "tg_chat_7".
Proof.
  rewrite (@telegram_user_id_falsy_user
             (update_of None (Some {| user_id := 0; username := Some [];
                                      first_name := lit "Zed" |}) (Some chat7))
             {| user_id := 0; username := Some []; first_name := lit "Zed" |}
             eq_refl eq_refl eq_refl).
  reflexivity.
Defined.

(** X3. Identifiers of different kinds can coincide: a user who chose the
    username [id_] followed by the decimal of [i] gets the identifier of
    the user without username whose numeric id is [i]. *)
Theorem telegram_user_id_collision (i j : Z) (fn fn' : pystr)
        (msg : option Message) (c c' : option Chat) :
  i <> 0%Z ->
  _telegram_user_id
    {| message := msg;
       effective_user := Some {| user_id := j;
                                 username := Some (lit "id_" ++ str_of_int i);
                                 first_name := fn |};
       effective_chat := c |}
  = _telegram_user_id
      {| message := msg;
         effective_user := Some {| user_id := i; username := None;
                                   first_name := fn' |};
         effective_chat := c' |}.
Proof.
  intros Hi. unfold _telegram_user_id, by_username, by_user_id. simpl.
  assert (Ht : int_truthy i = true).
  { unfold int_truthy. apply negb_true_iff, Z.eqb_neq, Hi. }
  rewrite Ht. reflexivity.
Qed.

Lemma telegram_user_id_collision_witness :
  _telegram_user_id
    (update_of None (Some {| user_id := 9; username := Some (lit "id_42");
                             first_name := lit "Eve" |}) None)
  = _telegram_user_id (update_of None (Some nameless) (Some chat7)).
Proof.
  apply (@telegram_user_id_collision 42 9 (lit "Eve") (lit "Bob")).
  discriminate.
Defined.

Lemma lit_inj (a b : string) : lit a = lit b -> a = b.
Proof.
  unfold lit. intros H.
  rewrite <- (string_of_list_ascii_of_string a),
    <- (string_of_list_ascii_of_string b).
  f_equal.
  revert H. generalize (list_ascii_of_string a) (list_ascii_of_string b).
  induction l as [|x l IH]; intros [|y l'] H; simpl in H;
    try discriminate; [reflexivity|].
  inversion H as [[Hx Hl]]. f_equal; [|exact (IH _ Hl)].
  rewrite <- (ascii_N_embedding x), <- (ascii_N_embedding y), Hx. reflexivity.
Qed.

Lemma str_of_int_inj (a b : Z) : str_of_int a = str_of_int b -> a = b.
Proof.
  unfold str_of_int. intros H. apply lit_inj in H.
  assert (Hi : Some (Z.to_int a) = Some (Z.to_int b)).
  { rewrite <- !NilEmpty.isi, H. reflexivity. }
  inversion Hi as [Hab].
  rewrite <- (DecimalZ.of_to a), <- (DecimalZ.of_to b), Hab. reflexivity.
Qed.

(** X4. Among users without a usable username, different numeric ids give
    different identifiers. *)
Theorem telegram_user_id_by_id_injective (upd upd' : Update) (u u' : User) :
  effective_user upd = Some u -> effective_user upd' = Some u' ->
  opt_str_truthy (username u) = false ->
  opt_str_truthy (username u') = false ->
  user_id u <> 0%Z -> user_id u' <> 0%Z ->
  user_id u <> user_id u' ->
  _telegram_user_id upd <> _telegram_user_id upd'.
Proof.
  intros Hu Hu' Hn Hn' Hi Hi' Hne Heq. apply Hne.
  assert (Hid : forall v w, effective_user v = Some w ->
                  opt_str_truthy (username w) = false -> user_id w <> 0%Z ->
                  _telegram_user_id v = lit "tg_id_" ++ str_of_int (user_id w)).
  { intros v w Hv Hw Hz.
    unfold _telegram_user_id, by_username, by_user_id. rewrite Hv.
    assert (Ht : int_truthy (user_id w) = true).
    { unfold int_truthy. apply negb_true_iff, Z.eqb_neq, Hz. }
    rewrite Ht. destruct (username w) as [n|]; [|reflexivity].
    simpl in Hw. rewrite Hw. reflexivity. }
  rewrite (Hid upd u Hu Hn Hi), (Hid upd' u' Hu' Hn' Hi') in Heq.
  apply app_inv_head in Heq. exact (str_of_int_inj _ _ Heq).
Qed.

Lemma telegram_user_id_by_id_injective_witness :
  _telegram_user_id (update_of None (Some nameless) None)
  <> _telegram_user_id (update_of None (Some (named (lit "Ann"))) None).
Proof.
  apply (@telegram_user_id_by_id_injective
           (update_of None (Some nameless) None)
           (update_of None (Some (named (lit "Ann"))) None)
           nameless (named (lit "Ann")));
    try reflexivity; discriminate.
Defined.

(** ** The backend client *)

Lemma lstrip_char_repeat (x : N) (n : nat) (s : pystr) :
  lstrip_char x (repeat x n ++ s) = lstrip_char x s.
Proof.
  induction n as [|n IH]; [reflexivity|].
  simpl. rewrite N.eqb_refl. exact IH.
Qed.

Lemma rstrip_char_repeat (x : N) (n : nat) (s : pystr) :
  rstrip_char x (s ++ repeat x n) = rstrip_char x s.
Proof.
  unfold rstrip_char. rewrite rev_app_distr, rev_repeat, lstrip_char_repeat.
  reflexivity.
Qed.

Lemma rstrip_char_keeps (x c : N) (s : pystr) :
  c <> x -> rstrip_char x (s ++ [c]) = s ++ [c].
Proof.
  intros Hc. unfold rstrip_char. rewrite rev_app_distr. simpl.
  destruct (N.eqb_spec c x) as [E|_]; [contradiction|].
  simpl. rewrite rev_involutive. reflexivity.
Qed.

(** X5. Trailing slashes of the base URL do not matter: with any number of
    them appended the call behaves the same; and a base that does not end
    in a slash is requested with [/chat] appended. *)
Theorem call_bcn_api_trailing_slashes (base : pystr) (w : World)
        (user msg : pystr) :
  (forall n, call_bcn_api (base ++ repeat 47%N n) w user msg
             = call_bcn_api base w user msg)
  /\ (forall b c, base = b ++ [c] -> c <> 47%N ->
        posted_urls (fst (call_bcn_api base w user msg))
        = [base ++ lit "/chat"]).
Proof.
  split.
  - intros n. rewrite !call_bcn_api_cases. unfold chat_url.
    rewrite rstrip_char_repeat. reflexivity.
  - intros b c -> Hc. rewrite call_bcn_api_cases. unfold chat_url.
    rewrite (rstrip_char_keeps b Hc).
    destruct (post_result w) as [e|st body].
    + destruct (is_Exception e); reflexivity.
    + destruct ((200 <=? st) && (st <=? 299))%Z; [|reflexivity].
      destruct body as [[| | | | | |dd]|]; reflexivity.
Qed.

Lemma call_bcn_api_trailing_slashes_witness :
  call_bcn_api (lit "http://localhost:8000//") world_down (lit "u") (lit "m")
  = call_bcn_api URL_DEFAULT world_down (lit "u") (lit "m")
  /\ posted_urls (fst (call_bcn_api URL_DEFAULT world_down (lit "u") (lit "m")))
     = [lit "http://localhost:8000/chat"].
Proof.
  destruct (@call_bcn_api_trailing_slashes URL_DEFAULT world_down (lit "u") (lit "m"))
    as [H1 H2].
  split.
  - exact (H1 2%nat).
  - apply (H2 (lit "http://localhost:800") 48%N); [reflexivity | discriminate].
Defined.

(** X6. One call makes one attempt: whatever happens, the effects start
    with the single request, which carries the user and the message as
    given; nothing follows it but at most one logged error. *)
Theorem call_bcn_api_single_attempt (base : pystr) (w : World)
        (user msg : pystr) :
  exists tail,
    fst (call_bcn_api base w user msg)
    = EPost (rstrip_char 47 base ++ lit "/chat") user msg :: tail
    /\ (tail = [] \/ exists e, tail = [ELog (LogError e)]).
Proof.
  rewrite call_bcn_api_cases. unfold chat_url.
  destruct (post_result w) as [e|st body].
  - destruct (is_Exception e); eexists; split; try reflexivity; eauto.
  - destruct ((200 <=? st) && (st <=? 299))%Z;
      [|eexists; split; try reflexivity; eauto].
    destruct body as [[| | | | | |dd]|];
      eexists; split; try reflexivity; eauto.
Qed.

(** X7. What [call_bcn_api] returns is never falsy: not [None], not the
    empty string, not an empty container. *)
Theorem call_bcn_api_returns_truthy (base : pystr) (w : World)
        (user msg : pystr) (v : pyval) :
  snd (call_bcn_api base w user msg) = Ret v -> val_truthy v = true.
Proof.
  rewrite call_bcn_api_cases.
  destruct (post_result w) as [e|st body].
  - destruct (is_Exception e); simpl; intros H; inversion H. reflexivity.
  - destruct ((200 <=? st) && (st <=? 299))%Z;
      [|simpl; intros H; inversion H; reflexivity].
    destruct body as [[| | | | | |dd]|];
      try (simpl; intros H; inversion H; reflexivity).
    simpl. destruct (val_truthy (dict_get dd (lit "response"))) eqn:E;
      intros H; inversion H; subst; [exact E | reflexivity].
Qed.

Lemma call_bcn_api_returns_truthy_witness :
  val_truthy (PStr FALLBACK) = true.
Proof.
  apply (@call_bcn_api_returns_truthy URL_DEFAULT (world_ok (answer []))
           (lit "u") (lit "m")).
  reflexivity.
Defined.

(** X8. A 2xx body that is valid JSON but not an object (null, a boolean,
    a number, a string, an array) is handled like a failure: an
    [AttributeError] is logged and the apology text returned. *)
Theorem call_bcn_api_body_not_object (base : pystr) (w : World)
        (user msg : pystr) (st : Z) (v : pyval) :
  post_result w = PostResponse st (Some v) ->
  (200 <= st <= 299)%Z ->
  (forall d, v <> PDict d) ->
  call_bcn_api base w user msg
  = ([EPost (rstrip_char 47 base ++ lit "/chat") user msg;
      ELog (LogError AttributeError)],
     Ret (PStr APOLOGY)).
Proof.
  intros Hw Hst Hv.
  assert (H2xx : ((200 <=? st) && (st <=? 299))%Z = true).
  { apply andb_true_iff; split; apply Z.leb_le; lia. }
  rewrite call_bcn_api_cases, Hw, H2xx.
  destruct v; try reflexivity. exfalso. exact (Hv _ eq_refl).
Qed.

Lemma call_bcn_api_body_not_object_witness :
  call_bcn_api URL_DEFAULT (world_ok (PList [PStr (lit "hi")])) (lit "u") (lit "m")
  = ([EPost (lit "http://localhost:8000/chat") (lit "u") (lit "m");
      ELog (LogError AttributeError)],
     Ret (PStr APOLOGY)).
Proof.
  apply (@call_bcn_api_body_not_object URL_DEFAULT
           (world_ok (PList [PStr (lit "hi")])) (lit "u") (lit "m") 200
           (PList [PStr (lit "hi")]) eq_refl); [lia | discriminate].
Defined.

(** X9. The [response] field is chosen by truthiness, not by type: a
    falsy value (null, false, 0, 0.0, an empty string, array or object)
    gives the fallback text, and any truthy value is returned as it is,
    string or not. *)
Theorem call_bcn_api_response_truthiness (base : pystr) (w : World)
        (user msg : pystr) (st : Z) (d : list (pystr * pyval)) (v : pyval) :
  post_result w = PostResponse st (Some (PDict d)) ->
  (200 <= st <= 299)%Z ->
  dict_find d (lit "response") = Some v ->
  snd (call_bcn_api base w user msg)
  = Ret (if val_truthy v then v else PStr FALLBACK).
Proof.
  intros Hw Hst Hv.
  assert (H2xx : ((200 <=? st) && (st <=? 299))%Z = true).
  { apply andb_true_iff; split; apply Z.leb_le; lia. }
  rewrite call_bcn_api_cases, Hw, H2xx. unfold dict_get. rewrite Hv.
  reflexivity.
Qed.

Lemma call_bcn_api_response_truthiness_witness :
  snd (call_bcn_api URL_DEFAULT (world_response (PInt 5)) (lit "u") (lit "m"))
  = Ret (PInt 5)
  /\ snd (call_bcn_api URL_DEFAULT (world_response (PInt 0)) (lit "u") (lit "m"))
     = Ret (PStr FALLBACK).
Proof.
  split.
  - apply (@call_bcn_api_response_truthiness URL_DEFAULT
             (world_response (PInt 5)) (lit "u") (lit "m") 200
             [(lit "response", PInt 5)] (PInt 5) eq_refl); [lia | reflexivity].
  - apply (@call_bcn_api_response_truthiness URL_DEFAULT
             (world_response (PInt 0)) (lit "u") (lit "m") 200
             [(lit "response", PInt 0)] (PInt 0) eq_refl); [lia | reflexivity].
Defined.

(** X10. Only [Exception]s are absorbed: when the request ends in an
    exception outside that class, such as a cancellation, the call raises
    it again and logs nothing. *)
Theorem call_bcn_api_base_exception (base : pystr) (w : World)
        (user msg : pystr) (e : exn) :
  post_result w = PostRaises e -> is_Exception e = false ->
  snd (call_bcn_api base w user msg) = Raise e
  /\ logged_errors (fst (call_bcn_api base w user msg)) = [].
Proof.
  intros Hw He. rewrite call_bcn_api_cases, Hw, He. split; reflexivity.
Qed.

Lemma call_bcn_api_base_exception_witness :
  snd (call_bcn_api URL_DEFAULT world_cancelled (lit "u") (lit "m"))
  = Raise CancelledError
  /\ logged_errors (fst (call_bcn_api URL_DEFAULT world_cancelled (lit "u") (lit "m")))
     = [].
Proof.
  apply call_bcn_api_base_exception; reflexivity.
Defined.

(** ** The free-text handler, further *)

Lemma handle_message_result (base : pystr) (d : N -> bool) (w : World)
      (upd : Update) (msg : Message) (raw : pystr) (c : Chat) :
  message upd = Some msg -> text msg = Some raw -> raw <> [] ->
  effective_chat upd = Some c -> chat_action_result w = None ->
  snd (handle_message base d w upd) =
  match snd (call_bcn_api base w (_telegram_user_id upd) (strip raw)) with
  | Ret v => snd (deliver d w v)
  | Raise e => Raise e
  end.
Proof.
  intros Hm Ht Hne Hc Hw.
  rewrite (handle_message_text base d w upd Hm Ht Hne),
    (send_typing_ok w upd Hc Hw).
  destruct (call_bcn_api base w (_telegram_user_id upd) (strip raw))
    as [t1 [v|e]]; simpl; [|reflexivity].
  destruct (deliver d w v) as [t2 r2]. reflexivity.
Qed.

(** The handler's effects when the typing indicator cannot be sent. *)
Lemma handle_message_no_typing (base : pystr) (d : N -> bool) (w : World)
      (upd : Update) (msg : Message) (raw : pystr) :
  message upd = Some msg -> text msg = Some raw -> raw <> [] ->
  (effective_chat upd = None \/ chat_action_result w <> None) ->
  requests (fst (handle_message base d w upd)) = []
  /\ replies (fst (handle_message base d w upd)) = [].
Proof.
  intros Hm Ht Hne Hno.
  rewrite (handle_message_text base d w upd Hm Ht Hne). unfold send_typing.
  destruct (effective_chat upd) as [c|]; [|split; reflexivity].
  destruct (chat_action_result w) as [e|]; [split; reflexivity|].
  destruct Hno as [H|H]; [discriminate | congruence].
Qed.

(** X11. Whatever the update and whatever the outside world does, one run
    of [handle_message] asks the backend at most once, replies at most
    once, and never replies without having asked. *)
Theorem handle_message_at_most_once (base : pystr) (d : N -> bool)
        (w : World) (upd : Update) :
  (List.length (requests (fst (handle_message base d w upd))) <= 1)%nat
  /\ (List.length (replies (fst (handle_message base d w upd))) <= 1)%nat
  /\ (replies (fst (handle_message base d w upd)) <> [] ->
      requests (fst (handle_message base d w upd)) <> []).
Proof.
  destruct (message upd) as [msg|] eqn:Hm.
  2:{ unfold handle_message. rewrite Hm. simpl. repeat split; auto. }
  destruct (text msg) as [[|x raw]|] eqn:Ht.
  1,3: unfold handle_message; rewrite Hm, Ht; simpl; repeat split; auto.
  assert (Hne : x :: raw <> []) by discriminate.
  destruct (effective_chat upd) as [c|] eqn:Hc.
  2:{ destruct (@handle_message_no_typing base d w upd msg (x :: raw) Hm Ht Hne)
        as [-> ->]; [left; exact Hc|]. simpl. repeat split; auto. }
  destruct (chat_action_result w) as [e|] eqn:Hw.
  { destruct (@handle_message_no_typing base d w upd msg (x :: raw) Hm Ht Hne)
      as [-> ->]; [right; congruence|]. simpl. repeat split; auto. }
  rewrite (handle_message_trace base d w upd Hm Ht Hne Hc Hw).
  rewrite !requests_app, !replies_app, call_bcn_api_requests,
    call_bcn_api_replies.
  destruct (snd (call_bcn_api _ _ _ _)) as [v|e].
  - rewrite deliver_requests, deliver_replies.
    destruct v; simpl; repeat split; auto; discriminate.
  - simpl. repeat split; auto.
Qed.

(** X12. Once the typing indicator is sent, the backend is asked exactly
    once, for the derived identifier and the stripped text, which neither
    begins nor ends with whitespace. *)
Theorem handle_message_forwards_stripped (base : pystr) (d : N -> bool)
        (w : World) (upd : Update) (msg : Message) (raw : pystr) (c : Chat) :
  message upd = Some msg -> text msg = Some raw -> raw <> [] ->
  effective_chat upd = Some c -> chat_action_result w = None ->
  requests (fst (handle_message base d w upd))
  = [(_telegram_user_id upd, strip raw)]
  /\ (forall x r, strip raw = x :: r -> isspace x = false)
  /\ (forall r x, strip raw = r ++ [x] -> isspace x = false).
Proof.
  intros Hm Ht Hne Hc Hw. split; [|split].
  - rewrite (handle_message_trace base d w upd Hm Ht Hne Hc Hw).
    rewrite !requests_app, call_bcn_api_requests.
    destruct (snd (call_bcn_api _ _ _ _)); [rewrite deliver_requests|];
      reflexivity.
  - intros x r. apply strip_head.
  - intros r x. apply strip_last.
Qed.

Lemma handle_message_forwards_stripped_witness :
  requests (fst (handle_message URL_DEFAULT ascii_digit world_down
                   (update_of (Some (lit "  hello ")) (Some alice) (Some chat7))))
  = [(lit "tg_alice", lit "hello")].
Proof.
  exact (proj1 (@handle_message_forwards_stripped URL_DEFAULT ascii_digit
                  world_down
                  (update_of (Some (lit "  hello ")) (Some alice) (Some chat7))
                  {| text := Some (lit "  hello ") |} (lit "  hello ") chat7
                  eq_refl eq_refl ltac:(discriminate) eq_refl eq_refl)).
Defined.

Lemma call_bcn_api_failure_value (base : pystr) (w : World) (user msg : pystr) :
  backend_failure w -> snd (call_bcn_api base w user msg) = Ret (PStr APOLOGY).
Proof.
  intros [H|[H|[(st & body & H & Hst)|(st & H)]]];
    rewrite call_bcn_api_cases, H; try reflexivity.
  - assert (Hno : ((200 <=? st) && (st <=? 299))%Z = false).
    { apply andb_false_iff.
      destruct (Z.leb_spec 200 st); [right|left; reflexivity].
      apply Z.leb_gt. lia. }
    rewrite Hno. reflexivity.
  - destruct ((200 <=? st) && (st <=? 299))%Z; reflexivity.
Qed.

Lemma clip_fixed (t : pystr) : (len t <=? 4000)%nat = true -> clip t = t.
Proof. intros H. apply clip_short, Nat.leb_le, H. Qed.

Lemma deliver_str_result (d : N -> bool) (w : World) (s : pystr) :
  reply_result w = None -> snd (deliver d w (PStr s)) = Ret tt.
Proof.
  intros Hr. unfold deliver, reply_text. rewrite Hr. reflexivity.
Qed.

(** X13. When the backend call fails, the user is told so: once the typing
    indicator is sent, the one reply is the apology text, untouched by the
    formatter and the length cap, and the handler ends normally if the
    reply can be sent. *)
Theorem handle_message_backend_down (base : pystr) (d : N -> bool)
        (w : World) (upd : Update) (msg : Message) (raw : pystr) (c : Chat) :
  (forall x, plain x = true -> d x = ascii_digit x) ->
  message upd = Some msg -> text msg = Some raw -> raw <> [] ->
  effective_chat upd = Some c -> chat_action_result w = None ->
  backend_failure w ->
  replies (fst (handle_message base d w upd)) = [APOLOGY]
  /\ (reply_result w = None -> snd (handle_message base d w upd) = Ret tt).
Proof.
  intros Hd Hm Ht Hne Hc Hw Hfail. split.
  - rewrite (handle_message_trace base d w upd Hm Ht Hne Hc Hw).
    rewrite !replies_app, call_bcn_api_replies,
      (call_bcn_api_failure_value _ _ _ Hfail), deliver_replies.
    rewrite (@format_plain d APOLOGY Hd eq_refl).
    rewrite clip_fixed; reflexivity.
  - intros Hr.
    rewrite (handle_message_result base d w upd Hm Ht Hne Hc Hw),
      (call_bcn_api_failure_value _ _ _ Hfail).
    apply deliver_str_result, Hr.
Qed.

Lemma handle_message_backend_down_witness :
  replies (fst (handle_message URL_DEFAULT ascii_digit world_down hello_update))
  = [APOLOGY]
  /\ snd (handle_message URL_DEFAULT ascii_digit world_down hello_update) = Ret tt.
Proof.
  destruct (@handle_message_backend_down URL_DEFAULT ascii_digit world_down
              hello_update {| text := Some (lit "hello") |} (lit "hello") chat7
              (fun x _ => eq_refl) eq_refl eq_refl ltac:(discriminate)
              eq_refl eq_refl ltac:(left; reflexivity)) as [H1 H2].
  split; [exact H1 | exact (H2 eq_refl)].
Defined.

(** X14. When the backend answers 2xx with a JSON object whose [response]
    is missing or falsy, the one reply is the fallback text, untouched by
    the formatter and the length cap. *)
Theorem handle_message_fallback_reply (base : pystr) (d : N -> bool)
        (w : World) (upd : Update) (msg : Message) (raw : pystr) (c : Chat)
        (st : Z) (dd : list (pystr * pyval)) :
  (forall x, plain x = true -> d x = ascii_digit x) ->
  message upd = Some msg -> text msg = Some raw -> raw <> [] ->
  effective_chat upd = Some c -> chat_action_result w = None ->
  post_result w = PostResponse st (Some (PDict dd)) -> (200 <= st <= 299)%Z ->
  val_truthy (dict_get dd (lit "response")) = false ->
  replies (fst (handle_message base d w upd)) = [FALLBACK].
Proof.
  intros Hd Hm Ht Hne Hc Hw Hp Hst Hv.
  assert (H2xx : ((200 <=? st) && (st <=? 299))%Z = true).
  { apply andb_true_iff; split; apply Z.leb_le; lia. }
  rewrite (handle_message_trace base d w upd Hm Ht Hne Hc Hw).
  rewrite !replies_app, call_bcn_api_replies.
  rewrite call_bcn_api_cases, Hp, H2xx. simpl snd. rewrite Hv.
  rewrite deliver_replies, (@format_plain d FALLBACK Hd eq_refl).
  rewrite clip_fixed; reflexivity.
Qed.

Lemma handle_message_fallback_reply_witness :
  replies (fst (handle_message URL_DEFAULT ascii_digit
                  (world_ok (PDict [(lit "correlation_id", PStr (lit "c-1"))]))
                  hello_update))
  = [FALLBACK].
Proof.
  apply (@handle_message_fallback_reply URL_DEFAULT ascii_digit
           (world_ok (PDict [(lit "correlation_id", PStr (lit "c-1"))]))
           hello_update {| text := Some (lit "hello") |} (lit "hello") chat7
           200 [(lit "correlation_id", PStr (lit "c-1"))]
           (fun x _ => eq_refl) eq_refl eq_refl ltac:(discriminate)
           eq_refl eq_refl eq_refl ltac:(lia) eq_refl).
Defined.

(** X15. A truthy [response] that is not a string is passed on by the
    backend client and stops the handler: it raises a [TypeError] and no
    reply is sent. *)
Theorem handle_message_non_string_response (base : pystr) (d : N -> bool)
        (w : World) (upd : Update) (msg : Message) (raw : pystr) (c : Chat)
        (st : Z) (dd : list (pystr * pyval)) (v : pyval) :
  message upd = Some msg -> text msg = Some raw -> raw <> [] ->
  effective_chat upd = Some c -> chat_action_result w = None ->
  post_result w = PostResponse st (Some (PDict dd)) -> (200 <= st <= 299)%Z ->
  dict_find dd (lit "response") = Some v ->
  val_truthy v = true -> is_str v = false ->
  snd (handle_message base d w upd) = Raise TypeError
  /\ replies (fst (handle_message base d w upd)) = [].
Proof.
  intros Hm Ht Hne Hc Hw Hp Hst Hf Hv Hs.
  assert (H2xx : ((200 <=? st) && (st <=? 299))%Z = true).
  { apply andb_true_iff; split; apply Z.leb_le; lia. }
  assert (Hcall : snd (call_bcn_api base w (_telegram_user_id upd) (strip raw))
                  = Ret v).
  { rewrite call_bcn_api_cases, Hp, H2xx. unfold dict_get. rewrite Hf.
    simpl. rewrite Hv. reflexivity. }
  split.
  - rewrite (handle_message_result base d w upd Hm Ht Hne Hc Hw), Hcall.
    destruct v; try reflexivity. discriminate.
  - rewrite (handle_message_trace base d w upd Hm Ht Hne Hc Hw).
    rewrite !replies_app, call_bcn_api_replies, Hcall, deliver_replies.
    destruct v; try reflexivity. discriminate.
Qed.

Lemma handle_message_non_string_response_witness :
  snd (handle_message URL_DEFAULT ascii_digit (world_response (PInt 5)) hello_update)
  = Raise TypeError
  /\ replies (fst (handle_message URL_DEFAULT ascii_digit
                     (world_response (PInt 5)) hello_update)) = [].
Proof.
  apply (@handle_message_non_string_response URL_DEFAULT ascii_digit
           (world_response (PInt 5)) hello_update
           {| text := Some (lit "hello") |} (lit "hello") chat7
           200 [(lit "response", PInt 5)] (PInt 5)
           eq_refl eq_refl ltac:(discriminate) eq_refl eq_refl eq_refl
           ltac:(lia) eq_refl eq_refl eq_refl).
Defined.

(** ** The command handlers *)

(** X16. [start] greets by first name and falls back to "there" when the
    update has no user or the first name is empty; the greeting is its
    one reply. *)
Theorem start_greeting (w : World) (upd : Update) (msg : Message) :
  message upd = Some msg ->
  (forall u, effective_user upd = Some u -> first_name u <> [] ->
     replies (fst (start w upd)) = [lit "Hi " ++ first_name u ++ GREETING_TAIL])
  /\ ((effective_user upd = None
       \/ exists u, effective_user upd = Some u /\ first_name u = []) ->
      replies (fst (start w upd)) = [lit "Hi there" ++ GREETING_TAIL]).
Proof.
  intros Hm. unfold start, message_reply_text, reply_text. rewrite Hm. split.
  - intros u Hu Hn. rewrite Hu.
    destruct (first_name u) as [|x n]; [congruence|].
    simpl. destruct (reply_result w); reflexivity.
  - intros [Hu|(u & Hu & Hn)]; rewrite Hu; [|rewrite Hn];
      simpl; destruct (reply_result w); reflexivity.
Qed.

Lemma start_greeting_witness :
  replies (fst (start world_down hello_update))
  = [lit "Hi Alice" ++ GREETING_TAIL]
  /\ replies (fst (start world_down (update_of (Some (lit "/start")) None (Some chat7))))
     = [lit "Hi there" ++ GREETING_TAIL].
Proof.
  split.
  - apply (proj1 (@start_greeting world_down hello_update
                    {| text := Some (lit "hello") |} eq_refl) alice eq_refl).
    discriminate.
  - apply (proj2 (@start_greeting world_down
                    (update_of (Some (lit "/start")) None (Some chat7))
                    {| text := Some (lit "/start") |} eq_refl)).
    left. reflexivity.
Defined.

(** X17. The two commands never touch the backend: they make no request,
    they behave the same whatever the backend would have answered, and
    [help_command] replies with the same text to every update that has a
    message. *)
Theorem commands_ignore_backend (w : World) (upd : Update) :
  requests (fst (start w upd)) = []
  /\ requests (fst (help_command w upd)) = []
  /\ (forall po, start (with_post w po) upd = start w upd)
  /\ (forall po, help_command (with_post w po) upd = help_command w upd)
  /\ (message upd <> None -> replies (fst (help_command w upd)) = [HELP_TEXT]).
Proof.
  unfold start, help_command, message_reply_text, reply_text.
  destruct (message upd) as [msg|].
  - simpl. destruct (reply_result w); repeat split; auto.
  - repeat split; auto. intros H. congruence.
Qed.

(** X18. A command update without a message makes both command handlers
    raise before anything is sent. *)
Theorem commands_need_message (w : World) (upd : Update) :
  message upd = None ->
  start w upd = ([], Raise AttributeError)
  /\ help_command w upd = ([], Raise AttributeError).
Proof.
  intros Hm. unfold start, help_command, message_reply_text. rewrite Hm.
  split; reflexivity.
Qed.

Lemma commands_need_message_witness :
  start world_down {| message := None; effective_user := Some alice;
                      effective_chat := Some chat7 |}
  = ([], Raise AttributeError).
Proof.
  apply (proj1 (@commands_need_message world_down
                  {| message := None; effective_user := Some alice;
                     effective_chat := Some chat7 |} eq_refl)).
Defined.

Lemma handle_message_at_most_once_witness :
  requests (fst (handle_message URL_DEFAULT ascii_digit world_typing_ok hello_update))
  <> [].
Proof.
  apply (proj2 (proj2 (@handle_message_at_most_once URL_DEFAULT ascii_digit
                         world_typing_ok hello_update))).
  discriminate.
Defined.

Lemma commands_ignore_backend_witness :
  replies (fst (help_command world_down hello_update)) = [HELP_TEXT].
Proof.
  destruct (@commands_ignore_backend world_down hello_update)
    as (_ & _ & _ & _ & H).
  apply H. discriminate.
Defined.

(** ** The formatter, further *)

(** A match of a pattern that needs [c] runs over a [c]. *)
Lemma m_needs (c : N) (r : re) :
  needs c r ->
  forall st k fin,
    m r st k = Some fin ->
    exists st' pre,
      k st' = Some fin /\ rest st = pre ++ rest st' /\ In c pre.
Proof.
  induction 1 as [p Hp|l Hl|a b _ IHa|a b _ IHb|a _ IHa];
    intros st k fin H.
  - simpl in H. destruct (rest st) as [|x s'] eqn:E; [discriminate|].
    destruct (p x) eqn:Ex; [|discriminate].
    exists (advance st x s'), [x]. repeat split; auto.
    left. exact (Hp x Ex).
  - simpl in H. destruct (lit_from l st) as [st1|] eqn:E; [|discriminate].
    exists st1, l. repeat split; auto. exact (lit_from_split l st E).
  - simpl in H. destruct (IHa _ _ _ H) as (st1 & pre1 & H1 & E1 & I1).
    destruct (m_split b _ _ H1) as (st2 & pre2 & H2 & E2 & _).
    exists st2, (pre1 ++ pre2). split; [exact H2|]. split.
    + rewrite E1, E2, app_assoc. reflexivity.
    + apply in_or_app. left. exact I1.
  - simpl in H. destruct (m_split a _ _ H) as (st1 & pre1 & H1 & E1 & _).
    destruct (IHb _ _ _ H1) as (st2 & pre2 & H2 & E2 & I2).
    exists st2, (pre1 ++ pre2). split; [exact H2|]. split.
    + rewrite E1, E2, app_assoc. reflexivity.
    + apply in_or_app. right. exact I2.
  - simpl in H. destruct (IHa _ _ _ H) as (st1 & pre & H1 & E1 & I1).
    exists (capture st st1), pre. repeat split; auto.
Qed.

Lemma match_at_needs (c : N) (r : re) (pv : option N) (s : pystr) :
  needs c r -> ~ In c s -> match_at r pv s = None.
Proof.
  intros Hr Hc. unfold match_at.
  destruct (m r _ Some) as [fin|] eqn:E; [|reflexivity].
  destruct (@m_needs c r Hr _ _ _ E) as (st' & pre & _ & Hs & Hin).
  exfalso. apply Hc. simpl in Hs. rewrite Hs. apply in_or_app. left. exact Hin.
Qed.

(** A substitution leaves alone a text without a character its pattern
    needs. *)
Lemma sub_needs (c : N) (r : re) (t : list titem) (s : pystr) :
  needs c r -> ~ In c s -> sub r t s = s.
Proof.
  intros Hr. unfold sub. generalize (@None N).
  induction s as [|x s IH]; intros pv Hc; [reflexivity|].
  cbn [sub_from]. rewrite (@match_at_needs c r pv (x :: s) Hr Hc).
  f_equal. apply IH. intros Hin. apply Hc. right. exact Hin.
Qed.

Lemma is_char_eq (c x : N) : is_char c x = true -> x = c.
Proof. unfold is_char. apply N.eqb_eq. Qed.

Lemma lead_cons (s : pystr) :
  (1 <= lead s)%nat -> exists s', s = NL :: s' /\ lead s = S (lead s').
Proof.
  destruct s as [|c s]; simpl; [lia|].
  destruct (is_char NL c) eqn:E; [|lia].
  apply is_char_eq in E. subst c. intros _. exists s. split; reflexivity.
Qed.

Lemma lead_three (s : pystr) :
  (3 <= lead s)%nat -> exists post, s = [NL; NL; NL] ++ post.
Proof.
  intros H.
  destruct (@lead_cons s ltac:(lia)) as (s1 & -> & E1). rewrite E1 in H.
  destruct (@lead_cons s1 ltac:(lia)) as (s2 & -> & E2). rewrite E2 in H.
  destruct (@lead_cons s2 ltac:(lia)) as (s3 & -> & E3).
  exists s3. reflexivity.
Qed.

Lemma collapse_fixed (s : pystr) : ~ infix [NL; NL; NL] s -> collapse s = s.
Proof.
  induction s as [|c s IH]; intros Hno; [reflexivity|].
  assert (Hl : (lead (c :: s) < 3)%nat).
  { destruct (Nat.lt_ge_cases (lead (c :: s)) 3) as [H|H]; [exact H|].
    destruct (@lead_three _ H) as [post Hp].
    exfalso. apply Hno. exists [], post. exact Hp. }
  rewrite (@collapse_copy c s Hl). f_equal. apply IH.
  intros (pre & post & H). apply Hno.
  exists (c :: pre), post. rewrite H. reflexivity.
Qed.

Lemma needs_label (l : string) : In COLON (lit l) -> needs COLON (re_label l).
Proof. intros H. unfold re_label. apply needs_grp, needs_str, H. Qed.

(** Without the characters its rules need, the formatter only strips. *)
Lemma format_only_strips (d : N -> bool) (text : pystr) :
  ~ In STAR text -> ~ In COLON text -> ~ In DOT text ->
  ~ infix [NL; NL; NL] text ->
  _format_for_telegram d text = strip text.
Proof.
  intros Hs Hc Hd Hn. unfold _format_for_telegram.
  rewrite (@sub_needs STAR re_bold _ text); [|unfold re_bold; apply needs_seq_l, needs_chr, is_char_eq|exact Hs].
  rewrite (@sub_needs COLON re_why _ text); [| |exact Hc].
  2:{ unfold re_why. apply needs_grp, needs_seq_r, needs_seq_r, needs_chr, is_char_eq. }
  rewrite !(@sub_needs COLON (re_label _) _ text);
    try exact Hc; try (apply needs_label; vm_compute; tauto).
  rewrite (@sub_needs DOT (re_item d) _ text); [| |exact Hd].
  2:{ unfold re_item. apply needs_seq_r, needs_seq_r, needs_seq_l, needs_chr, is_char_eq. }
  change (sub re_blank [TLit [NL; NL]] text) with (collapse text).
  rewrite (@collapse_fixed text Hn). reflexivity.
Qed.

(** X19. A text with no asterisk, no colon, no full stop and no three
    newlines in a row passes every rewriting rule untouched, whatever [\d]
    matches: the formatter only strips it. *)
Theorem format_plain_text (d : N -> bool) (text : pystr) :
  ~ In STAR text -> ~ In COLON text -> ~ In DOT text ->
  ~ infix [NL; NL; NL] text ->
  _format_for_telegram d text = strip text.
Proof.
  intros Hs Hc Hd Hn. exact (format_only_strips d Hs Hc Hd Hn).
Qed.

Lemma format_plain_text_witness :
  _format_for_telegram ascii_digit (lit " 3 galleries near you ")
  = lit "3 galleries near you".
Proof.
  rewrite (@format_plain_text ascii_digit (lit " 3 galleries near you "));
    try reflexivity; try (vm_compute; intuition discriminate).
  intros (pre & post & H).
  apply (f_equal (fun s => existsb (N.eqb NL) s)) in H.
  rewrite !existsb_app in H. simpl in H. rewrite orb_true_r in H.
  discriminate.
Defined.

Lemma inked_drop_nl (s : pystr) : inked (drop_nl s) = inked s.
Proof.
  induction s as [|c s IH]; [reflexivity|].
  simpl. destruct (is_char NL c) eqn:E; simpl; rewrite ?E; simpl; auto.
Qed.

Lemma collapse_inked (n : nat) :
  forall s, (List.length s <= n)%nat ->
    inked (collapse s) = inked s
    /\ (List.length (collapse s) <= List.length s)%nat.
Proof.
  induction n as [|n IH]; intros s Hn.
  - destruct s; [split; [reflexivity | apply Nat.le_refl] | simpl in Hn; lia].
  - destruct s as [|c s]; [split; [reflexivity | apply Nat.le_refl]|].
    simpl in Hn.
    destruct (Nat.lt_ge_cases (lead (c :: s)) 3) as [H|H].
    + rewrite (@collapse_copy c s H).
      destruct (IH s ltac:(lia)) as [Hi Hl].
      split; [|simpl; lia].
      unfold inked in *. simpl. rewrite Hi. reflexivity.
    + rewrite (@collapse_run c s H).
      pose proof (length_drop_nl s) as Hlen.
      destruct (IH (drop_nl s) ltac:(lia)) as [Hi Hl].
      destruct (@lead_three (c :: s) H) as [post Hp].
      inversion Hp; subst c s.
      split.
      * change (inked (NL :: NL :: collapse (drop_nl (NL :: NL :: post))))
          with (inked (collapse (drop_nl (NL :: NL :: post)))).
        rewrite Hi, inked_drop_nl. reflexivity.
      * simpl in *. lia.
Qed.

(** X20. Collapsing blank lines only removes newlines: what [re.sub] of
    [\n{3,}] returns has the same characters other than newlines, in the
    same order, and is never longer than its input. *)
Theorem sub_blank_keeps_ink (s : pystr) :
  inked (sub re_blank [TLit [NL; NL]] s) = inked s
  /\ (len (sub re_blank [TLit [NL; NL]] s) <= len s)%nat.
Proof.
  exact (@collapse_inked (List.length s) s (Nat.le_refl _)).
Qed.

(** ** Patterns without anchor *)

Lemma lit_from_same (l : pystr) :
  forall a b, same_text a b -> same_result (lit_from l a) (lit_from l b).
Proof.
  induction l as [|x l IH]; intros a b [Hr Hg]; simpl.
  - split; assumption.
  - rewrite <- Hr. destruct (rest a) as [|c s']; [exact I|].
    destruct (c =? x)%N; [|exact I].
    apply IH. split; [reflexivity | exact Hg].
Qed.

Lemma star_from_same (p : N -> bool) (s : pystr) :
  forall a b k1 k2,
    same_text a b ->
    (forall a' b', same_text a' b' -> same_result (k1 a') (k2 b')) ->
    same_result (star_from p s a k1) (star_from p s b k2).
Proof.
  induction s as [|c s IH]; intros a b k1 k2 Hab Hk; simpl.
  - apply Hk, Hab.
  - destruct (p c); [|apply Hk, Hab].
    assert (Hin : same_result (star_from p s (advance a c s) k1)
                              (star_from p s (advance b c s) k2)).
    { apply IH; [|exact Hk]. split; [reflexivity | exact (proj2 Hab)]. }
    destruct (star_from p s (advance a c s) k1),
      (star_from p s (advance b c s) k2); simpl in Hin; try contradiction.
    + exact Hin.
    + apply Hk, Hab.
Qed.

Lemma m_same (r : re) :
  anchor_free r = true ->
  forall a b k1 k2,
    same_text a b ->
    (forall a' b', same_text a' b' -> same_result (k1 a') (k2 b')) ->
    same_result (m r a k1) (m r b k2).
Proof.
  induction r as [p|l| |p|x IHx y IHy|x IHx]; intros Hf a b k1 k2 Hab Hk;
    simpl in *.
  - destruct Hab as [Hr Hg]. rewrite <- Hr.
    destruct (rest a) as [|c s']; [exact I|].
    destruct (p c); [|exact I].
    apply Hk. split; [reflexivity | exact Hg].
  - pose proof (lit_from_same l Hab) as Hl.
    destruct (lit_from l a), (lit_from l b); simpl in Hl; try contradiction.
    + apply Hk, Hl.
    + exact I.
  - discriminate.
  - rewrite <- (proj1 Hab). apply star_from_same; assumption.
  - apply andb_true_iff in Hf as [Hx Hy].
    apply IHx; [exact Hx | exact Hab|].
    intros a' b' Hab'. apply IHy; assumption.
  - apply IHx; [exact Hf | exact Hab|].
    intros a' b' [Hr' Hg']. apply Hk. destruct Hab as [Hr Hg].
    split; simpl; [exact Hr'|]. rewrite Hr, Hr'. reflexivity.
Qed.

(** For a pattern without [^] the substitution does not look at the
    character before a position. *)
Lemma sub_from_anchor_free (r : re) (t : list titem) :
  anchor_free r = true ->
  forall s n pv pv', sub_from r t n pv s = sub_from r t n pv' s.
Proof.
  intros Hf. induction s as [|c s IH]; intros n pv pv'; [reflexivity|].
  cbn [sub_from]. destruct n as [|n]; [|reflexivity].
  assert (Hm : same_result (match_at r pv (c :: s)) (match_at r pv' (c :: s))).
  { unfold match_at. apply m_same; [exact Hf | split; reflexivity|].
    intros a' b' H. exact H. }
  destruct (match_at r pv (c :: s)) as [st1|],
    (match_at r pv' (c :: s)) as [st2|]; simpl in Hm; try contradiction.
  - destruct Hm as [-> ->]. reflexivity.
  - reflexivity.
Qed.

(** ** The bold rule *)

(** A greedy class repetition over a run [w] that is followed by a
    character outside the class hands over right behind [w], if the rest
    of the pattern matches there. *)
Lemma star_from_run (p : N -> bool) (w : pystr) :
  forall y st k,
    Forall (fun c => p c = true) w ->
    (forall c y', y = c :: y' -> p c = false) ->
    rest st = w ++ y ->
    exists st',
      rest st' = y /\ group1 st' = group1 st
      /\ forall fin, k st' = Some fin ->
                     star_from p (w ++ y) st k = Some fin.
Proof.
  induction w as [|c w IH]; intros y st k Hw Hy Hst.
  - exists st. repeat split; auto. intros fin Hk. simpl.
    destruct y as [|c y']; [exact Hk|].
    simpl. rewrite (Hy c y' eq_refl). exact Hk.
  - destruct (IH y (advance st c (w ++ y)) k (Forall_inv_tail Hw) Hy eq_refl)
      as (st' & Hr & Hg & Hrun).
    exists st'. repeat split; auto. intros fin Hk.
    simpl. rewrite (Forall_inv Hw), (Hrun fin Hk). reflexivity.
Qed.

Lemma firstn_prefix (u y : pystr) :
  firstn (List.length (u ++ y) - List.length y) (u ++ y) = u.
Proof.
  rewrite length_app, Nat.add_sub, firstn_app, Nat.sub_diag, firstn_all.
  simpl. apply app_nil_r.
Qed.

Lemma match_bold (pv : option N) (w x : pystr) :
  w <> [] -> ~ In STAR w ->
  exists st,
    match_at re_bold pv ([STAR; STAR] ++ w ++ [STAR; STAR] ++ x) = Some st
    /\ rest st = x /\ group1 st = w.
Proof.
  intros Hne Hw. destruct w as [|c w]; [congruence|].
  assert (Hc : not_char STAR c = true).
  { unfold not_char. apply negb_true_iff, N.eqb_neq.
    intros E. apply Hw. left. exact E. }
  assert (Hall : Forall (fun a => not_char STAR a = true) w).
  { apply Forall_forall. intros a Ha. unfold not_char.
    apply negb_true_iff, N.eqb_neq. intros E. apply Hw. right.
    rewrite <- E. exact Ha. }
  unfold match_at, re_bold, Plus. simpl. rewrite Hc.
  match goal with
  | |- exists st, star_from _ _ ?s0 ?k = Some st /\ _ =>
      destruct (@star_from_run (not_char STAR) w (STAR :: STAR :: x) s0 k Hall)
        as (st' & Hr & Hg & Hrun)
  end.
  { intros a y' E. inversion E. reflexivity. }
  { reflexivity. }
  eexists. split.
  - apply Hrun. rewrite Hr. simpl. reflexivity.
  - split; [reflexivity|].
    unfold capture. cbn [group1 rest advance]. rewrite Hr.
    change (c :: w ++ STAR :: STAR :: x) with ((c :: w) ++ STAR :: STAR :: x).
    apply firstn_prefix.
Qed.

Lemma sub_bold_copy (u z : pystr) :
  ~ In STAR u ->
  forall pv, sub_from re_bold T_BOLD 0 pv (u ++ z)
             = u ++ sub_from re_bold T_BOLD 0 (last_or pv u) z.
Proof.
  induction u as [|a u IH]; intros Hu pv; [reflexivity|].
  simpl app. cbn [sub_from].
  assert (Ha : is_char STAR a = false).
  { unfold is_char. apply N.eqb_neq. intros E. apply Hu. left. exact E. }
  assert (Hm : match_at re_bold pv (a :: u ++ z) = None).
  { unfold match_at, re_bold. simpl. rewrite Ha. reflexivity. }
  rewrite Hm. f_equal. apply IH. intros Hin. apply Hu. right. exact Hin.
Qed.

(** X21. The bold rule: in a text that reads [u], two asterisks, [w], two
    asterisks, [x], where [u] and the non-empty [w] hold no asterisk, the
    first substitution of the formatter copies [u], replaces the span by
    the marker followed by [w], and goes on with [x]. *)
Theorem sub_bold_span (u w x : pystr) :
  ~ In STAR u -> w <> [] -> ~ In STAR w ->
  sub re_bold [TLit MARK_BOLD; TGrp1]
      (u ++ [STAR; STAR] ++ w ++ [STAR; STAR] ++ x)
  = u ++ MARK_BOLD ++ w ++ sub re_bold [TLit MARK_BOLD; TGrp1] x.
Proof.
  intros Hu Hne Hw. unfold sub.
  change [TLit MARK_BOLD; TGrp1] with T_BOLD.
  rewrite (@sub_bold_copy u _ Hu None). f_equal.
  destruct (@match_bold (last_or None u) w x Hne Hw) as (st & Hm & Hr & Hg).
  destruct (@sub_from_match re_bold T_BOLD _ _ st eq_refl Hm)
    as (pre & _ & _ & ->).
  rewrite Hr, Hg. unfold T_BOLD at 1. cbn [expand].
  rewrite app_nil_r, <- app_assoc.
  do 2 f_equal. apply sub_from_anchor_free. reflexivity.
Qed.

Lemma sub_bold_span_witness :
  sub re_bold [TLit MARK_BOLD; TGrp1] (lit "see **MACBA** now")
  = lit "see " ++ MARK_BOLD ++ lit "MACBA" ++ lit " now".
Proof.
  refine (@sub_bold_span (lit "see ") (lit "MACBA") (lit " now") _ _ _).
  - vm_compute. intuition discriminate.
  - discriminate.
  - vm_compute. intuition discriminate.
Defined.

(** ** Configuration, further *)

(** X22. Variables that are set are taken as they are: the token and the
    base URL come back unchanged, and a base URL set to the empty string
    stays empty, the default being used only when the variable is
    absent. *)
Theorem load_config_set_values (upper : pystr -> pystr)
        (logging_attr : pystr -> option pyval) (env : Env) (tok url : pystr) :
  env (lit "TELEGRAM_BOT_TOKEN") = Some tok -> tok <> [] ->
  env (lit "BCN_API_BASE_URL") = Some url ->
  exists log_level,
    _load_config upper logging_attr env = Ret (tok, url, log_level).
Proof.
  intros Ht Hne Hu. unfold _load_config, getenv. rewrite Ht, Hu.
  destruct tok as [|c tok]; [congruence|]. eexists. reflexivity.
Qed.

Lemma load_config_set_values_witness :
  exists log_level,
    _load_config ascii_upper level_names
      (env_of [(lit "TELEGRAM_BOT_TOKEN", lit "123:abc");
               (lit "BCN_API_BASE_URL", [])])
    = Ret (lit "123:abc", [], log_level).
Proof.
  apply load_config_set_values; [reflexivity | discriminate | reflexivity].
Defined.

(** X23. The verbosity name is looked up in upper case among the
    attributes of [logging]: a name that is not found there gives
    [logging.INFO] without any error, and whatever is found becomes the
    level as it is. *)
Theorem load_config_log_level (upper : pystr -> pystr)
        (logging_attr : pystr -> option pyval) (env : Env)
        (tok name : pystr) :
  env (lit "TELEGRAM_BOT_TOKEN") = Some tok -> tok <> [] ->
  env (lit "BCN_BOT_LOG_LEVEL") = Some name ->
  exists api_base log_level,
    _load_config upper logging_attr env = Ret (tok, api_base, log_level)
    /\ (logging_attr (upper name) = None -> log_level = logging_INFO)
    /\ (forall v, logging_attr (upper name) = Some v -> log_level = v).
Proof.
  intros Ht Hne Hl. unfold _load_config, getenv. rewrite Ht, Hl.
  destruct tok as [|c tok]; [congruence|].
  eexists; eexists. split; [reflexivity|]. split.
  - intros H. rewrite H. reflexivity.
  - intros v H. rewrite H. reflexivity.
Qed.

Lemma load_config_log_level_witness :
  exists api_base,
    _load_config ascii_upper level_names
      (env_of [(lit "TELEGRAM_BOT_TOKEN", lit "123:abc");
               (lit "BCN_BOT_LOG_LEVEL", lit "chatty")])
    = Ret (lit "123:abc", api_base, logging_INFO).
Proof.
  destruct (@load_config_log_level ascii_upper level_names
              (env_of [(lit "TELEGRAM_BOT_TOKEN", lit "123:abc");
                       (lit "BCN_BOT_LOG_LEVEL", lit "chatty")])
              (lit "123:abc") (lit "chatty") eq_refl ltac:(discriminate) eq_refl)
    as (b & l & Heq & Hnone & _).
  exists b. rewrite Heq, (Hnone eq_refl). reflexivity.
Defined.

(** X24. Configuration and client together: when [_load_config] succeeds
    and the base URL variable is absent, a backend call made with the
    loaded base URL goes to [http://localhost:8000/chat]. *)
Theorem default_backend_url (upper : pystr -> pystr)
        (logging_attr : pystr -> option pyval) (env : Env)
        (tok base : pystr) (lvl : pyval) (w : World) (user msg : pystr) :
  _load_config upper logging_attr env = Ret (tok, base, lvl) ->
  env (lit "BCN_API_BASE_URL") = None ->
  posted_urls (fst (call_bcn_api base w user msg))
  = [lit "http://localhost:8000/chat"].
Proof.
  unfold _load_config, getenv. intros Hcfg Hu. rewrite Hu in Hcfg.
  destruct (negb _); [discriminate|]. inversion Hcfg; subst.
  rewrite call_bcn_api_cases.
  destruct (post_result w) as [e|st body].
  - destruct (is_Exception e); reflexivity.
  - destruct ((200 <=? st) && (st <=? 299))%Z; [|reflexivity].
    destruct body as [[| | | | | |dd]|]; reflexivity.
Qed.

Lemma default_backend_url_witness :
  posted_urls (fst (call_bcn_api URL_DEFAULT world_down (lit "u") (lit "m")))
  = [lit "http://localhost:8000/chat"].
Proof.
  apply (@default_backend_url ascii_upper level_names token_only
           (lit "123:abc") URL_DEFAULT logging_INFO world_down (lit "u") (lit "m"));
    reflexivity.
Defined.

(** ** The length cap, further *)

(** X25. Capping twice is capping once, and the cap never touches the
    first 3996 characters. *)
Theorem clip_idempotent (t : pystr) :
  clip (clip t) = clip t /\ slice_to 3996 (clip t) = slice_to 3996 t.
Proof.
  destruct (Nat.le_gt_cases (len t) 4000) as [H|H].
  - rewrite (clip_short t H). split; [apply (clip_short t H) | reflexivity].
  - destruct (clip_long t H) as [Hc Hl]. split.
    + apply clip_short. rewrite Hl. lia.
    + rewrite Hc. unfold slice_to.
      rewrite firstn_app, firstn_firstn, Nat.min_id, length_firstn.
      unfold len in H.
      replace (3996 - Nat.min 3996 (List.length t))%nat with 0%nat by lia.
      rewrite firstn_O, app_nil_r. reflexivity.
Qed.

(** ** End to end *)

(** X26. A plain answer is relayed as it is: when the backend returns a
    text without asterisk, colon, full stop or three newlines in a row,
    whose stripped form fits the cap, the one reply is that text,
    stripped. *)
Theorem handle_message_relays_plain_answer (base : pystr) (d : N -> bool)
        (w : World) (upd : Update) (msg : Message) (raw : pystr) (c : Chat)
        (st : Z) (dd : list (pystr * pyval)) (s : pystr) :
  message upd = Some msg -> text msg = Some raw -> raw <> [] ->
  effective_chat upd = Some c -> chat_action_result w = None ->
  post_result w = PostResponse st (Some (PDict dd)) -> (200 <= st <= 299)%Z ->
  dict_find dd (lit "response") = Some (PStr s) -> s <> [] ->
  ~ In STAR s -> ~ In COLON s -> ~ In DOT s -> ~ infix [NL; NL; NL] s ->
  (len (strip s) <= 4000)%nat ->
  replies (fst (handle_message base d w upd)) = [strip s].
Proof.
  intros Hm Ht Hne Hc Hw Hp Hst Hf Hs H1 H2 H3 H4 Hlen.
  assert (H2xx : ((200 <=? st) && (st <=? 299))%Z = true).
  { apply andb_true_iff; split; apply Z.leb_le; lia. }
  rewrite (handle_message_trace base d w upd Hm Ht Hne Hc Hw).
  rewrite !replies_app, call_bcn_api_replies.
  rewrite call_bcn_api_cases, Hp, H2xx. simpl snd.
  unfold dict_get. rewrite Hf.
  destruct s as [|x s']; [congruence|]. simpl val_truthy. cbv iota.
  rewrite deliver_replies, (@format_only_strips d (x :: s') H1 H2 H3 H4).
  rewrite (clip_short _ Hlen). reflexivity.
Qed.

Lemma handle_message_relays_plain_answer_witness :
  replies (fst (handle_message URL_DEFAULT ascii_digit
                  (world_ok (answer (lit " Try the MACBA ")))
                  hello_update))
  = [lit "Try the MACBA"].
Proof.
  refine (@handle_message_relays_plain_answer URL_DEFAULT ascii_digit
            (world_ok (answer (lit " Try the MACBA "))) hello_update
            {| text := Some (lit "hello") |} (lit "hello") chat7 200 _
            (lit " Try the MACBA ")
            eq_refl eq_refl _ eq_refl eq_refl eq_refl _ eq_refl _ _ _ _ _ _);
    try discriminate; try lia; try (vm_compute; intuition discriminate).
  - intros (pre & post & H).
    apply (f_equal (fun s => existsb (N.eqb NL) s)) in H.
    rewrite !existsb_app in H. simpl in H. rewrite orb_true_r in H.
    discriminate.
  - apply Nat.leb_le. reflexivity.
Defined.

(** ** The length cap on replies *)

Lemma clip_capped (t : pystr) :
  ((4000 < len t)%nat ->
     clip t = slice_to 3996 t ++ lit "..." /\ len (clip t) = 3999%nat)
  /\ ((len t <= 4000)%nat -> clip t = t)
  /\ (len (clip t) <= 4000)%nat.
Proof.
  split; [apply clip_long|]. split; [apply clip_short|].
  destruct (Nat.le_gt_cases (len t) 4000) as [H|H].
  - rewrite (clip_short t H). exact H.
  - destruct (clip_long t H) as [_ ->]. lia.
Qed.

(** A run that gets a text from the backend call replies once, with the
    capped formatting of that text. *)
Lemma handle_message_one_reply (base : pystr) (d : N -> bool) (w : World)
      (upd : Update) (msg : Message) (raw : pystr) (c : Chat) (s : pystr) :
  message upd = Some msg -> text msg = Some raw -> raw <> [] ->
  effective_chat upd = Some c -> chat_action_result w = None ->
  snd (call_bcn_api base w (_telegram_user_id upd) (strip raw))
  = Ret (PStr s) ->
  replies (fst (handle_message base d w upd))
  = [clip (_format_for_telegram d s)].
Proof.
  intros Hm Ht Hne Hc Hw Hcall.
  rewrite (handle_message_trace base d w upd Hm Ht Hne Hc Hw).
  rewrite !replies_app, call_bcn_api_replies, Hcall, deliver_replies.
  reflexivity.
Qed.

(** C3. The reply of [handle_message] is cut from the formatting [t] of
    the text the backend call returned.  Every reply found among the
    effects of a run comes from such a text, and a run that gets as far as
    a returned text sends exactly one reply.  In both cases the reply is,
    when [t] is longer than 4000 characters, the first 3996 characters of
    [t] followed by three dots, 3999 characters in all, and otherwise [t]
    itself; it is never longer than 4000 characters. *)
Theorem handle_message_reply_clipped (base : pystr) (d : N -> bool)
        (w : World) (upd : Update) :
  (forall body,
      In body (replies (fst (handle_message base d w upd))) ->
      exists msg raw s,
        message upd = Some msg /\ text msg = Some raw
        /\ snd (call_bcn_api base w (_telegram_user_id upd) (strip raw))
           = Ret (PStr s)
        /\ let t := _format_for_telegram d s in
           ((4000 < len t)%nat ->
              body = slice_to 3996 t ++ lit "..." /\ len body = 3999%nat)
           /\ ((len t <= 4000)%nat -> body = t)
           /\ (len body <= 4000)%nat)
  /\ (forall msg raw c s,
      message upd = Some msg -> text msg = Some raw -> raw <> [] ->
      effective_chat upd = Some c -> chat_action_result w = None ->
      snd (call_bcn_api base w (_telegram_user_id upd) (strip raw))
      = Ret (PStr s) ->
      exists body,
        replies (fst (handle_message base d w upd)) = [body]
        /\ let t := _format_for_telegram d s in
           ((4000 < len t)%nat ->
              body = slice_to 3996 t ++ lit "..." /\ len body = 3999%nat)
           /\ ((len t <= 4000)%nat -> body = t)
           /\ (len body <= 4000)%nat).
Proof.
  split.
  - intros body Hin.
    destruct (message upd) as [msg|] eqn:Hm.
    2:{ unfold handle_message in Hin. rewrite Hm in Hin. destruct Hin. }
    destruct (text msg) as [[|x raw]|] eqn:Ht.
    1,3: unfold handle_message in Hin; rewrite Hm, Ht in Hin; destruct Hin.
    assert (Hne : x :: raw <> []) by discriminate.
    destruct (effective_chat upd) as [c|] eqn:Hc.
    2:{ destruct (@handle_message_no_typing base d w upd msg (x :: raw)
                    Hm Ht Hne (or_introl Hc)) as [_ Hr].
        rewrite Hr in Hin. destruct Hin. }
    destruct (chat_action_result w) as [e|] eqn:Hw.
    { assert (Hsome : chat_action_result w <> None) by congruence.
      destruct (@handle_message_no_typing base d w upd msg (x :: raw)
                  Hm Ht Hne (or_intror Hsome)) as [_ Hr].
      rewrite Hr in Hin. destruct Hin. }
    destruct (snd (call_bcn_api base w (_telegram_user_id upd) (strip (x :: raw))))
      as [v|e] eqn:Hcall.
    2:{ rewrite (handle_message_trace base d w upd Hm Ht Hne Hc Hw) in Hin.
        rewrite !replies_app, call_bcn_api_replies, Hcall in Hin.
        destruct Hin. }
    destruct (is_str v) eqn:Hv.
    + destruct v as [| | | |s| |]; try discriminate.
      rewrite (@handle_message_one_reply base d w upd msg (x :: raw) c s
                 Hm Ht Hne Hc Hw Hcall) in Hin.
      destruct Hin as [<-|[]].
      exists msg, (x :: raw), s.
      split; [reflexivity|]. split; [exact Ht|]. split; [exact Hcall|].
      exact (clip_capped (_format_for_telegram d s)).
    + rewrite (handle_message_trace base d w upd Hm Ht Hne Hc Hw) in Hin.
      rewrite !replies_app, call_bcn_api_replies, Hcall, deliver_replies in Hin.
      destruct v; try discriminate; destruct Hin.
  - intros msg raw c s Hm Ht Hne Hc Hw Hcall.
    exists (clip (_format_for_telegram d s)).
    split; [exact (@handle_message_one_reply base d w upd msg raw c s
                     Hm Ht Hne Hc Hw Hcall)|].
    exact (clip_capped (_format_for_telegram d s)).
Qed.

Lemma strip_repeat (a : N) (n : nat) :
  isspace a = false -> strip (repeat a n) = repeat a n.
Proof.
  intros Ha.
  assert (Hl : forall k, lstrip (repeat a k) = repeat a k).
  { intros [|k]; [reflexivity|]. simpl. rewrite Ha. reflexivity. }
  unfold strip, rstrip. rewrite Hl, rev_repeat, Hl, rev_repeat. reflexivity.
Qed.

(** The formatter leaves the overlong text of the example alone. *)
Lemma format_overlong (d : N -> bool) : _format_for_telegram d OVERLONG = OVERLONG.
Proof.
  assert (Hin : forall x, In x OVERLONG -> x = 97%N).
  { intros x Hx. exact (repeat_spec _ _ _ Hx). }
  rewrite format_only_strips.
  - apply strip_repeat. reflexivity.
  - intros H. apply Hin in H. discriminate.
  - intros H. apply Hin in H. discriminate.
  - intros H. apply Hin in H. discriminate.
  - intros (pre & post & H).
    assert (Hnl : In NL OVERLONG).
    { rewrite H. apply in_or_app. right. left. reflexivity. }
    apply Hin in Hnl. discriminate.
Qed.

Lemma slice_overlong : slice_to 3996 OVERLONG = repeat 97%N 3996.
Proof.
  unfold slice_to, OVERLONG. change 4001%nat with (3996 + 5)%nat.
  rewrite repeat_app, firstn_app, repeat_length, Nat.sub_diag, firstn_O,
    app_nil_r.
  apply firstn_all2. rewrite repeat_length. lia.
Qed.

Lemma handle_message_reply_clipped_witness :
  replies (fst (handle_message URL_DEFAULT ascii_digit
                  (world_ok (answer OVERLONG)) hello_update))
  = [repeat 97%N 3996 ++ lit "..."]
  /\ replies (fst (handle_message URL_DEFAULT ascii_digit
                     world_typing_ok hello_update))
     = [lit "Try the MACBA."].
Proof.
  split.
  - destruct (proj2 (@handle_message_reply_clipped URL_DEFAULT ascii_digit
                       (world_ok (answer OVERLONG)) hello_update)
                    {| text := Some (lit "hello") |} (lit "hello") chat7 OVERLONG
                    eq_refl eq_refl ltac:(discriminate) eq_refl eq_refl eq_refl)
      as (body & Hrep & Hlong & _ & _).
    rewrite Hrep. f_equal.
    rewrite format_overlong in Hlong.
    destruct Hlong as [Hb _].
    + unfold len, OVERLONG. rewrite repeat_length. lia.
    + rewrite Hb, slice_overlong. reflexivity.
  - destruct (proj2 (@handle_message_reply_clipped URL_DEFAULT ascii_digit
                       world_typing_ok hello_update)
                    {| text := Some (lit "hello") |} (lit "hello") chat7
                    (lit "Try the MACBA.")
                    eq_refl eq_refl ltac:(discriminate) eq_refl eq_refl eq_refl)
      as (body & Hrep & _ & Hshort & _).
    rewrite Hrep. f_equal. apply Hshort.
    apply Nat.leb_le. reflexivity.
Defined.

(** ** Whitespace-only text, without conditions *)

